(** * Stonebox: the Unix resource limiter shim

    A verification development for [src/utils/unixResourceLimiter.py].

    The script is one function, [set_limits_and_exec], that reads three
    environment variables, applies two resource limits, parses a JSON
    argument vector, scrubs its own variables from the environment and
    replaces the process image with [os.execvp].

    The function is embedded in a small state-and-exception monad over an
    explicit process state (environment, limit table, the two output
    streams, and a log of the operating-system calls made).  What the
    script calls but does not define (Python's [int], [json.loads],
    [resource.setrlimit], [os.execvp]) is an interface, [Platform]; the
    general theorems hold for every implementation of that interface, and
    one concrete implementation, [Ref.platform], is used to run the
    function on concrete inputs. *)

From Stdlib Require Import ZArith Ascii String List Bool Lia.
From stdpp Require Import base option strings pretty gmap.

Set Warnings "-register-all".

Local Open Scope Z_scope.
Local Open Scope string_scope.
Local Open Scope list_scope.

(** ** Python values and exceptions *)

Module Py.

(** The classes of the exceptions that are raised, by name for the ones
    named here, [OtherException] for any other.  All of them derive from
    [Exception]; [SystemExit], which does not, is a separate outcome
    ([SystemExit] in [result] below). *)
Inductive exn_class : Type :=
| ValueError
| TypeError
| IndexError
| KeyError
| OverflowError
| JSONDecodeError
| RecursionError
| OSError
| FileNotFoundError
| PermissionError
| NotADirectoryError
| OtherException (name : string).

Definition exn_class_eqb (a b : exn_class) : bool :=
  match a, b with
  | ValueError, ValueError | TypeError, TypeError | IndexError, IndexError
  | KeyError, KeyError | OverflowError, OverflowError
  | JSONDecodeError, JSONDecodeError | RecursionError, RecursionError
  | OSError, OSError | FileNotFoundError, FileNotFoundError
  | PermissionError, PermissionError
  | NotADirectoryError, NotADirectoryError => true
  | OtherException x, OtherException y => String.eqb x y
  | _, _ => false
  end.

(** An exception instance: its class and [str(e)]. *)
Record exn : Type := Exn { exn_cls : exn_class; exn_str : string }.

(** The values [json.loads] can return.  A [str] is held as its UTF-8
    bytes.  A float keeps the text of its literal: the script never
    computes with it. *)
Inductive value : Type :=
| VNone
| VBool (b : bool)
| VInt (n : Z)
| VFloat (literal : string)
| VStr (s : string)
| VList (items : list value)
| VDict (items : list (string * value)).

(** The bytes that continue a character in UTF-8: 128 to 191. *)
Definition is_continuation (c : ascii) : bool :=
  let n := N_of_ascii c in (128 <=? n)%N && (n <=? 191)%N.

Fixpoint continuation (s : string) : string :=
  match s with
  | String c s' =>
      if is_continuation c then String c (continuation s') else EmptyString
  | EmptyString => EmptyString
  end.

(** [x[0]]: subscription with the integer 0.  The first character of a
    [str] is its first byte and the bytes that continue it.  A JSON
    object only has string keys, so the integer key 0 is never present
    in a dict. *)
Definition subscript0 (x : value) : exn + value :=
  match x with
  | VList (v :: _) => inr v
  | VList [] => inl (Exn IndexError "list index out of range")
  | VStr (String c rest) => inr (VStr (String c (continuation rest)))
  | VStr EmptyString => inl (Exn IndexError "string index out of range")
  | VDict _ => inl (Exn KeyError "0")
  | VNone => inl (Exn TypeError "'NoneType' object is not subscriptable")
  | VBool _ => inl (Exn TypeError "'bool' object is not subscriptable")
  | VInt _ => inl (Exn TypeError "'int' object is not subscriptable")
  | VFloat _ => inl (Exn TypeError "'float' object is not subscriptable")
  end.

(** Truth value of an [Optional[str]]: [None] and [""] are false. *)
Definition truthy (o : option string) : bool :=
  match o with
  | Some (String _ _) => true
  | Some EmptyString | None => false
  end.

(** [type(x).__name__] *)
Definition type_name (x : value) : string :=
  match x with
  | VNone => "NoneType"
  | VBool _ => "bool"
  | VInt _ => "int"
  | VFloat _ => "float"
  | VStr _ => "str"
  | VList _ => "list"
  | VDict _ => "dict"
  end.

(** The type of the first item that is not a [str]. *)
Fixpoint first_non_str (items : list value) : string :=
  match items with
  | [] => ""
  | VStr _ :: rest => first_non_str rest
  | x :: _ => type_name x
  end.

(** The list of strings a value is, when it is one. *)
Fixpoint as_str_list (items : list value) : option (list string) :=
  match items with
  | [] => Some []
  | VStr s :: rest =>
      match as_str_list rest with
      | Some l => Some (s :: l)
      | None => None
      end
  | _ :: _ => None
  end.

End Py.
Export Py.

(** ** The process *)

Inductive resource : Type := RLIMIT_AS | RLIMIT_NPROC.

(** The limit table: a (soft, hard) pair per resource. *)
Record limits : Type := Limits { limit_as : Z * Z; limit_nproc : Z * Z }.

Definition getrlimit (r : resource) (t : limits) : Z * Z :=
  match r with
  | RLIMIT_AS => limit_as t
  | RLIMIT_NPROC => limit_nproc t
  end.

Definition with_rlimit (r : resource) (v : Z * Z) (t : limits) : limits :=
  match r with
  | RLIMIT_AS => {| limit_as := v; limit_nproc := limit_nproc t |}
  | RLIMIT_NPROC => {| limit_as := limit_as t; limit_nproc := v |}
  end.

(** The calls into the operating system the script makes, logged when
    they are made, whatever their outcome.  [CallExecvp] records the
    environment and the limit table at the moment of the call: they are
    what the new image inherits. *)
Inductive call : Type :=
| CallSetrlimit (r : resource) (lim : Z * Z)
| CallExecvp (file args : value) (env : gmap string string) (lims : limits).

(** The process: its environment, its limit table, the lines written to
    the two streams, and the calls made, oldest first. *)
Record proc : Type := Proc {
  environ : gmap string string;
  rlimits : limits;
  stdout : list string;
  stderr : list string;
  calls : list call
}.

Definition set_environ (e : gmap string string) (p : proc) : proc :=
  {| environ := e; rlimits := rlimits p; stdout := stdout p;
     stderr := stderr p; calls := calls p |}.

Definition set_rlimits (t : limits) (p : proc) : proc :=
  {| environ := environ p; rlimits := t; stdout := stdout p;
     stderr := stderr p; calls := calls p |}.

Definition add_stderr (line : string) (p : proc) : proc :=
  {| environ := environ p; rlimits := rlimits p; stdout := stdout p;
     stderr := stderr p ++ [line]; calls := calls p |}.

Definition add_call (c : call) (p : proc) : proc :=
  {| environ := environ p; rlimits := rlimits p; stdout := stdout p;
     stderr := stderr p; calls := calls p ++ [c] |}.

(** ** The monad of statements *)

(** How a statement ends: normally, by an exception that propagates, by
    [sys.exit], or because [execvp] replaced the program. *)
Inductive result (A : Type) : Type :=
| Normal (a : A)
| Raised (e : exn)
| SystemExit (status : Z)
| ImageReplaced.

Arguments Normal {A} a.
Arguments Raised {A} e.
Arguments SystemExit {A} status.
Arguments ImageReplaced {A}.

Definition M (A : Type) : Type := proc -> result A * proc.

Definition ret {A} (a : A) : M A := fun p => (Normal a, p).

Definition bind {A B} (m : M A) (k : A -> M B) : M B :=
  fun p =>
    match m p with
    | (Normal a, p') => k a p'
    | (Raised e, p') => (Raised e, p')
    | (SystemExit n, p') => (SystemExit n, p')
    | (ImageReplaced, p') => (ImageReplaced, p')
    end.

Notation "x <~ m ;; k" := (bind m (fun x => k))
  (at level 100, m at next level, right associativity).
Notation "m ;;; k" := (bind m (fun _ => k))
  (at level 100, right associativity).

Definition raise {A} (e : exn) : M A := fun p => (Raised e, p).

Definition lift {A} (r : exn + A) : M A :=
  match r with
  | inl e => raise e
  | inr a => ret a
  end.

(** [if c: body] *)
Definition when (c : bool) (body : M unit) : M unit :=
  if c then body else ret tt.

(** [try: body  except C1: h1  except C2 as e: h2 ...]: the first clause
    whose class test accepts the exception handles it; an exception no
    clause accepts, [sys.exit] and a replaced image pass through. *)
Definition clause (A : Type) : Type := (exn -> bool) * (exn -> M A).

Fixpoint dispatch {A} (clauses : list (clause A)) (e : exn) : M A :=
  match clauses with
  | [] => raise e
  | (accepts, handler) :: rest =>
      if accepts e then handler e else dispatch rest e
  end.

Definition try_except {A} (body : M A) (clauses : list (clause A)) : M A :=
  fun p =>
    match body p with
    | (Raised e, p') => dispatch clauses e p'
    | other => other
    end.

(** [except Exception as e]: every [exn] is an [Exception]. *)
Definition except_Exception {A} (h : exn -> M A) : clause A :=
  (fun _ => true, h).

(** [except FileNotFoundError] *)
Definition except_FileNotFoundError {A} (h : M A) : clause A :=
  (fun e => exn_class_eqb (exn_cls e) FileNotFoundError, fun _ => h).

(** ** The library *)

(** What the script calls and does not define.  [int_of_str] is [int] on
    a [str]; [json_loads_str] is [json.loads] on a [str], together with
    the [import json] that precedes it in the same [try] block;
    [setrlimit_refusal r lim t] is the exception [resource.setrlimit]
    raises for the request [lim] on resource [r] when the table is [t],
    if it raises; [execv_failure file argv env t] is the exception
    [os.execvp] raises for a program name and a list of strings, [None]
    when the image is replaced; [str_of] is [str] of a value that is not
    a [str].  Each answer depends on the arguments shown and on nothing
    else: that the interpreter itself may run short of memory under the
    limit it has just set is left out. *)
Class Platform : Type := {
  int_of_str : string -> exn + Z;
  json_loads_str : string -> exn + value;
  setrlimit_refusal : resource -> Z * Z -> limits -> option exn;
  execv_failure :
    string -> list string -> gmap string string -> limits -> option exn;
  str_of : value -> string
}.

Definition has_nul (s : string) : bool :=
  existsb (fun c => Ascii.eqb c Ascii.zero) (list_ascii_of_string s).

Section Shim.

Context {platform : Platform}.

(** [os.environ.get(key)] *)
Definition os_environ_get (key : string) : M (option string) :=
  fun p => (Normal (environ p !! key), p).

(** [key in os.environ] *)
Definition os_environ_contains (key : string) : M bool :=
  fun p => (Normal (bool_decide (is_Some (environ p !! key))), p).

(** [del os.environ[key]] *)
Definition os_environ_del (key : string) : M unit :=
  fun p =>
    match environ p !! key with
    | Some _ => (Normal tt, set_environ (delete key (environ p)) p)
    | None => (Raised (Exn KeyError ("'" +:+ key +:+ "'")), p)
    end.

(** [int(x)] for an [Optional[str]] *)
Definition int (x : option string) : M Z :=
  match x with
  | Some s => lift (int_of_str s)
  | None =>
      raise (Exn TypeError
        "int() argument must be a string, a bytes-like object or a real number, not 'NoneType'")
  end.

(** [json.loads(x)] for an [Optional[str]] *)
Definition json_loads (x : option string) : M value :=
  match x with
  | Some s => lift (json_loads_str s)
  | None =>
      raise (Exn TypeError
        "the JSON object must be str, bytes or bytearray, not NoneType")
  end.

(** [resource.setrlimit(r, (soft, hard))]: the request is refused with an
    exception, or the pair becomes the limit of [r]. *)
Definition resource_setrlimit (r : resource) (lim : Z * Z) : M unit :=
  fun p =>
    let p1 := add_call (CallSetrlimit r lim) p in
    match setrlimit_refusal r lim (rlimits p) with
    | Some e => (Raised e, p1)
    | None => (Normal tt, set_rlimits (with_rlimit r lim (rlimits p)) p1)
    end.

(** [print(msg, file=sys.stderr)] *)
Definition print_stderr (msg : string) : M unit :=
  fun p => (Normal tt, add_stderr msg p).

(** [sys.exit(status)]: raises [SystemExit], so it completes at no type. *)
Definition sys_exit {A} (status : Z) : M A :=
  fun p => (SystemExit status, p).

(** [x[0]] *)
Definition index0 (x : value) : M value := lift (subscript0 x).

(** [f"{x}"] *)
Definition fmt (x : value) : string :=
  match x with
  | VStr s => s
  | _ => str_of x
  end.

(** What [os.execvp(file, args)] raises, [None] when it replaces the
    image.  A [file] that is not a [str], or [args] that is not a list
    of [str], is rejected before the operating system is asked: with
    [ValueError] when [file] is a [str] holding a NUL (the path is
    converted first), with [TypeError] otherwise. *)
Definition execvp_raises (file args : value) (env : gmap string string)
    (t : limits) : option exn :=
  match file, args with
  | VStr f, VList items =>
      match as_str_list items with
      | Some argv => execv_failure f argv env t
      | None =>
          if has_nul f
          then Some (Exn ValueError "embedded null byte")
          else Some (Exn TypeError
                 ("expected str, bytes or os.PathLike object, not "
                    +:+ first_non_str items))
      end
  | VStr f, _ =>
      if has_nul f
      then Some (Exn ValueError "embedded null byte")
      else Some (Exn TypeError "execv() arg 2 must be a tuple or list")
  | _, _ =>
      Some (Exn TypeError
        ("expected str, bytes or os.PathLike object, not " +:+ type_name file))
  end.

(** [os.execvp(file, args)] *)
Definition os_execvp (file args : value) : M unit :=
  fun p =>
    let p1 := add_call (CallExecvp file args (environ p) (rlimits p)) p in
    match execvp_raises file args (environ p) (rlimits p) with
    | Some e => (Raised e, p1)
    | None => (ImageReplaced, p1)
    end.

(** The function of the script, statement by statement. *)
Definition set_limits_and_exec : M unit :=
  memory_limit_mb_str <~ os_environ_get "STONEBOX_MEMORY_LIMIT_MB" ;;
  process_limit_str <~ os_environ_get "STONEBOX_PROCESS_LIMIT" ;;
  command_args_json <~ os_environ_get "STONEBOX_EXEC_ARGS" ;;

  when (truthy memory_limit_mb_str)
    (try_except
       (n <~ int memory_limit_mb_str ;;
        let memory_limit_bytes := n * 1024 * 1024 in
        resource_setrlimit RLIMIT_AS (memory_limit_bytes, memory_limit_bytes))
       [except_Exception (fun e =>
          print_stderr
            ("Stonebox Unix Limiter: Failed to set memory limit: "
               +:+ exn_str e))]) ;;;

  when (truthy process_limit_str)
    (try_except
       (process_limit <~ int process_limit_str ;;
        resource_setrlimit RLIMIT_NPROC (process_limit, process_limit))
       [except_Exception (fun e =>
          print_stderr
            ("Stonebox Unix Limiter: Failed to set process limit: "
               +:+ exn_str e))]) ;;;

  when (negb (truthy command_args_json))
    (print_stderr "Stonebox Unix Limiter: STONEBOX_EXEC_ARGS not set." ;;;
     sys_exit 120) ;;;

  command_parts <~
    try_except
      (json_loads command_args_json)
      [except_Exception (fun e =>
         print_stderr
           ("Stonebox Unix Limiter: Failed to parse STONEBOX_EXEC_ARGS: "
              +:+ exn_str e) ;;;
         sys_exit 121)] ;;

  actual_command <~ index0 command_parts ;;
  let actual_args := command_parts in

  (has <~ os_environ_contains "STONEBOX_MEMORY_LIMIT_MB" ;;
   when has (os_environ_del "STONEBOX_MEMORY_LIMIT_MB")) ;;;
  (has <~ os_environ_contains "STONEBOX_PROCESS_LIMIT" ;;
   when has (os_environ_del "STONEBOX_PROCESS_LIMIT")) ;;;
  (has <~ os_environ_contains "STONEBOX_EXEC_ARGS" ;;
   when has (os_environ_del "STONEBOX_EXEC_ARGS")) ;;;

  try_except
    (os_execvp actual_command actual_args)
    [except_FileNotFoundError
       (print_stderr
          ("Stonebox Unix Limiter: Command not found: " +:+ fmt actual_command) ;;;
        sys_exit 127);
     except_Exception (fun e =>
       print_stderr
         ("Stonebox Unix Limiter: Failed to exec command "
            +:+ fmt actual_command +:+ ": " +:+ exn_str e) ;;;
       sys_exit 126)].

End Shim.

(** The script's last two lines call the function; the interpreter turns
    the way it ends into the way the process ends.  An exception nobody
    caught makes the interpreter print a traceback and exit with status 1
    (the traceback is the interpreter's, it is not added to [stderr]
    here); [sys.exit(n)] exits with status [n]. *)
Inductive ending : Type :=
| Exit (status : Z)
| Exec.

Definition main {platform : Platform} (p : proc) : ending * proc :=
  match set_limits_and_exec p with
  | (Normal _, p') => (Exit 0, p')
  | (Raised _, p') => (Exit 1, p')
  | (SystemExit n, p') => (Exit n, p')
  | (ImageReplaced, p') => (Exec, p')
  end.

(** ** The steps of the function

    The body of [set_limits_and_exec] cut at its blank lines: the block
    of the memory limit (step A), the block of the process limit
    (step B), and the rest (steps C to E: the argument vector, the
    scrubbing of the environment, the replacement of the image). *)

Section Steps.

Context {platform : Platform}.

Definition memory_failed : string :=
  "Stonebox Unix Limiter: Failed to set memory limit: ".

Definition process_failed : string :=
  "Stonebox Unix Limiter: Failed to set process limit: ".

Definition memory_request (n : Z) : Z * Z := (n * 1024 * 1024, n * 1024 * 1024).

Definition process_request (n : Z) : Z * Z := (n, n).

Definition step_A (memory_limit_mb_str : option string) : M unit :=
  when (truthy memory_limit_mb_str)
    (try_except
       (n <~ int memory_limit_mb_str ;;
        let memory_limit_bytes := n * 1024 * 1024 in
        resource_setrlimit RLIMIT_AS (memory_limit_bytes, memory_limit_bytes))
       [except_Exception (fun e =>
          print_stderr (memory_failed +:+ exn_str e))]).

Definition step_B (process_limit_str : option string) : M unit :=
  when (truthy process_limit_str)
    (try_except
       (process_limit <~ int process_limit_str ;;
        resource_setrlimit RLIMIT_NPROC (process_limit, process_limit))
       [except_Exception (fun e =>
          print_stderr (process_failed +:+ exn_str e))]).

Definition not_set : string :=
  "Stonebox Unix Limiter: STONEBOX_EXEC_ARGS not set.".

Definition parse_failed : string :=
  "Stonebox Unix Limiter: Failed to parse STONEBOX_EXEC_ARGS: ".

Definition not_found : string :=
  "Stonebox Unix Limiter: Command not found: ".

Definition exec_failed (command : string) (e : exn) : string :=
  "Stonebox Unix Limiter: Failed to exec command "
    +:+ command +:+ ": " +:+ exn_str e.

Definition steps_C_to_E (command_args_json : option string) : M unit :=
  when (negb (truthy command_args_json))
    (print_stderr not_set ;;; sys_exit 120) ;;;
  command_parts <~
    try_except
      (json_loads command_args_json)
      [except_Exception (fun e =>
         print_stderr (parse_failed +:+ exn_str e) ;;; sys_exit 121)] ;;
  actual_command <~ index0 command_parts ;;
  (has <~ os_environ_contains "STONEBOX_MEMORY_LIMIT_MB" ;;
   when has (os_environ_del "STONEBOX_MEMORY_LIMIT_MB")) ;;;
  (has <~ os_environ_contains "STONEBOX_PROCESS_LIMIT" ;;
   when has (os_environ_del "STONEBOX_PROCESS_LIMIT")) ;;;
  (has <~ os_environ_contains "STONEBOX_EXEC_ARGS" ;;
   when has (os_environ_del "STONEBOX_EXEC_ARGS")) ;;;
  try_except
    (os_execvp actual_command command_parts)
    [except_FileNotFoundError
       (print_stderr (not_found +:+ fmt actual_command) ;;; sys_exit 127);
     except_Exception (fun e =>
       print_stderr (exec_failed (fmt actual_command) e) ;;;
       sys_exit 126)].

(** The process when steps A and B are over. *)
Definition after_limits (p : proc) : proc :=
  snd (step_B (environ p !! "STONEBOX_PROCESS_LIMIT")
         (snd (step_A (environ p !! "STONEBOX_MEMORY_LIMIT_MB") p))).

(** The environment without the three variables of the shim. *)
Definition scrub (env : gmap string string) : gmap string string :=
  delete "STONEBOX_EXEC_ARGS"
    (delete "STONEBOX_PROCESS_LIMIT"
       (delete "STONEBOX_MEMORY_LIMIT_MB" env)).

(** What a limit block leaves: the state of the process after the block
    for resource [r] has run on the value [var] of its variable. *)
Definition limit_outcome (r : resource) (failed : string)
    (request : Z -> Z * Z) (var : option string) (p : proc) : proc :=
  match var with
  | Some (String c s) =>
      match int_of_str (String c s) with
      | inl e => add_stderr (failed +:+ exn_str e) p
      | inr n =>
          let p1 := add_call (CallSetrlimit r (request n)) p in
          match setrlimit_refusal r (request n) (rlimits p) with
          | Some e => add_stderr (failed +:+ exn_str e) p1
          | None => set_rlimits (with_rlimit r (request n) (rlimits p)) p1
          end
      end
  | Some EmptyString | None => p
  end.

(** What steps C to E do, case by case. *)
Definition launch (command_args_json : option string) (p : proc)
  : result unit * proc :=
  match command_args_json with
  | Some (String c s) =>
      match json_loads_str (String c s) with
      | inl e => (SystemExit 121, add_stderr (parse_failed +:+ exn_str e) p)
      | inr command_parts =>
          match subscript0 command_parts with
          | inl e => (Raised e, p)
          | inr actual_command =>
              let env := scrub (environ p) in
              let p1 :=
                add_call
                  (CallExecvp actual_command command_parts env (rlimits p))
                  (set_environ env p) in
              match execvp_raises actual_command command_parts env (rlimits p)
              with
              | None => (ImageReplaced, p1)
              | Some e =>
                  if exn_class_eqb (exn_cls e) FileNotFoundError
                  then (SystemExit 127,
                        add_stderr (not_found +:+ fmt actual_command) p1)
                  else (SystemExit 126,
                        add_stderr (exec_failed (fmt actual_command) e) p1)
              end
          end
      end
  | Some EmptyString | None => (SystemExit 120, add_stderr not_set p)
  end.

(** The calls made since the process was in state [p]. *)
Definition calls_since (p p' : proc) : list call :=
  drop (length (calls p)) (calls p').

Definition is_execvp (c : call) : bool :=
  match c with
  | CallExecvp _ _ _ _ => true
  | CallSetrlimit _ _ => false
  end.

(** The attempts to replace the image among some calls. *)
Definition exec_calls (cs : list call) : list call :=
  List.filter is_execvp cs.

(** The tag every diagnostic of the shim starts with. *)
Definition tag : string := "Stonebox Unix Limiter: ".

Definition tagged (m : string) : Prop := exists rest, m = tag +:+ rest.

(** What a limit block leaves alone, and what it may add: diagnostics
    with the tag, and calls that are not attempts to replace the image. *)
Record extends (p q : proc) : Prop := {
  ext_environ : environ q = environ p;
  ext_stdout : stdout q = stdout p;
  ext_stderr : exists msgs, stderr q = stderr p ++ msgs /\ Forall tagged msgs;
  ext_calls : exists cs, calls q = calls p ++ cs /\ exec_calls cs = []
}.

Definition is_FileNotFoundError (e : exn) : bool :=
  exn_class_eqb (exn_cls e) FileNotFoundError.

(** The argument vector a value is: a list of strings, not empty. *)
Definition argv_of (v : value) : option (list string) :=
  match v with
  | VList items =>
      match as_str_list items with
      | Some (arg0 :: rest) => Some (arg0 :: rest)
      | Some [] | None => None
      end
  | _ => None
  end.

(** A limit block fails when [int] raises or [resource.setrlimit] does. *)
Inductive limit_failure (r : resource) (request : Z -> Z * Z) (s : string)
    (t : limits) (e : exn) : Prop :=
| parse_failure :
    int_of_str s = inl e -> limit_failure r request s t e
| call_failure (n : Z) :
    int_of_str s = inr n ->
    setrlimit_refusal r (request n) t = Some e ->
    limit_failure r request s t e.

(** The variable and the request of each resource, and the state in
    which its block starts. *)
Definition variable_of (r : resource) : string :=
  match r with
  | RLIMIT_AS => "STONEBOX_MEMORY_LIMIT_MB"
  | RLIMIT_NPROC => "STONEBOX_PROCESS_LIMIT"
  end.

Definition request_of (r : resource) : Z -> Z * Z :=
  match r with
  | RLIMIT_AS => memory_request
  | RLIMIT_NPROC => process_request
  end.

Definition before_block (r : resource) (p : proc) : proc :=
  match r with
  | RLIMIT_AS => p
  | RLIMIT_NPROC => snd (step_A (environ p !! "STONEBOX_MEMORY_LIMIT_MB") p)
  end.

(** What is seen of a run from outside: how it ended, the limit table,
    the two streams and the calls made. *)
Definition observe (run : result unit * proc)
  : result unit * limits * list string * list string * list call :=
  (fst run, rlimits (snd run), stdout (snd run), stderr (snd run),
   calls (snd run)).

End Steps.

(** ** A reference platform

    CPython 3.12 on 64-bit Linux, for an unprivileged process, over a
    small fixed file system.  A [str] is represented by its UTF-8 bytes;
    a byte outside ASCII is neither a digit nor white space.  Exhaustion
    of the interpreter's own memory is not modelled. *)

Module Ref.

Definition is_digit (c : ascii) : bool :=
  let n := N_of_ascii c in (48 <=? n)%N && (n <=? 57)%N.

Definition digit_value (c : ascii) : Z := Z.of_N (N_of_ascii c) - 48.

(** *** [int(s)] *)

(** White space as [int] strips it (the ASCII part). *)
Definition is_space (c : ascii) : bool :=
  let n := N_of_ascii c in
  ((9 <=? n)%N && (n <=? 13)%N) || ((28 <=? n)%N && (n <=? 32)%N).

Fixpoint lstrip (s : string) : string :=
  match s with
  | String c s' => if is_space c then lstrip s' else s
  | EmptyString => s
  end.

Definition rstrip (s : string) : string :=
  String.rev (lstrip (String.rev s)).

(** Digits with single underscores between them: [acc] is the value read
    so far, [count] the number of digits, [after_digit] whether the
    previous character was a digit. *)
Fixpoint digits (s : string) (acc : Z) (count : Z) (after_digit : bool)
  : option (Z * Z) :=
  match s with
  | EmptyString => if after_digit then Some (acc, count) else None
  | String c s' =>
      if is_digit c then digits s' (10 * acc + digit_value c) (count + 1) true
      else if Ascii.eqb c "_" && after_digit then digits s' acc count false
      else None
  end.

Definition max_str_digits : Z := 4300.

Definition quoted (s : string) : string := "'" +:+ s +:+ "'".

Definition int_of_str (s : string) : exn + Z :=
  let invalid :=
    inl (Exn ValueError
           ("invalid literal for int() with base 10: " +:+ quoted s)) in
  let body := rstrip (lstrip s) in
  let '(negative, unsigned) :=
    match body with
    | String "-" rest => (true, rest)
    | String "+" rest => (false, rest)
    | _ => (false, body)
    end in
  match digits unsigned 0 0 false with
  | Some (n, count) =>
      if (max_str_digits <? count)%Z
      then inl (Exn ValueError
             ("Exceeds the limit (4300 digits) for integer string conversion: value has "
                +:+ pretty count
                +:+ " digits; use sys.set_int_max_str_digits() to increase the limit"))
      else inr (if negative then - n else n)
  | None => invalid
  end.

(** *** [resource.setrlimit] *)

(** The value of a Python integer as an [rlim_t] (unsigned, 64 bits);
    -1 is [RLIM_INFINITY]. *)
Definition rlim (v : Z) : Z := v mod 2 ^ 64.

Definition fits_long (v : Z) : bool := ((- 2 ^ 63 <=? v) && (v <? 2 ^ 63))%Z.

(** The request is converted to C integers, then the kernel checks it:
    the soft limit may not exceed the hard one, and an unprivileged
    process may not raise its hard limit. *)
Definition setrlimit_refusal (r : resource) (lim : Z * Z) (t : limits)
  : option exn :=
  let '(soft, hard) := lim in
  if negb (fits_long soft && fits_long hard)
  then Some (Exn OverflowError "Python int too large to convert to C long")
  else if (rlim hard <? rlim soft)%Z
  then Some (Exn ValueError "current limit exceeds maximum limit")
  else if (rlim (snd (getrlimit r t)) <? rlim hard)%Z
  then Some (Exn ValueError "not allowed to raise maximum limit")
  else None.

(** *** [json.loads(s)]

    After the decoder of the [json] package ([json.decoder],
    [json.scanner]).  Positions count bytes.  Recursion is on [fuel],
    set from the length of the document; when it runs out the answer is
    the [RecursionError] Python gives for a document nested too deep. *)

Definition dquote : ascii := "034".
Definition backslash : ascii := "\".

(** [WHITESPACE]: space, tab, line feed, carriage return. *)
Definition is_ws (c : ascii) : bool :=
  Ascii.eqb c " " || Ascii.eqb c "009" || Ascii.eqb c "010"
  || Ascii.eqb c "013".

Fixpoint skip_ws (s : string) (pos : Z) : string * Z :=
  match s with
  | String c s' => if is_ws c then skip_ws s' (pos + 1) else (s, pos)
  | EmptyString => (s, pos)
  end.

Fixpoint strip_prefix (pre s : string) : option string :=
  match pre, s with
  | EmptyString, _ => Some s
  | String a pre', String b s' =>
      if Ascii.eqb a b then strip_prefix pre' s' else None
  | String _ _, EmptyString => None
  end.

Definition len (s : string) : Z := Z.of_nat (String.length s).

(** The three kinds of failure of the scanner: [StopIteration(idx)] (no
    value starts at [idx]), [JSONDecodeError(msg, doc, pos)], and any
    other exception. *)
Inductive jerror : Type :=
| JStop (idx : Z)
| JFail (msg : string) (pos : Z)
| JOther (e : exn).

Definition too_deep : jerror :=
  JOther (Exn RecursionError "maximum recursion depth exceeded").

(** [doc.count(LF, 0, pos) + 1] and [pos - doc.rfind(LF, 0, pos)] *)
Fixpoint line_col (doc : string) (pos : nat) (line col : Z) : Z * Z :=
  match pos, doc with
  | S pos', String c doc' =>
      if Ascii.eqb c "010" then line_col doc' pos' (line + 1) 1
      else line_col doc' pos' line (col + 1)
  | _, _ => (line, col)
  end.

Definition decode_error (msg doc : string) (pos : Z) : exn :=
  let '(line, col) := line_col doc (Z.to_nat pos) 1 1 in
  Exn JSONDecodeError
    (msg +:+ ": line " +:+ pretty line +:+ " column " +:+ pretty col
         +:+ " (char " +:+ pretty pos +:+ ")").

(** **** Numbers

    [NUMBER_RE]: an optional minus sign and either a zero or a digit
    string that starts with a non-zero digit; then, optionally, a dot
    and digits; then, optionally, [e] or [E], a sign and digits. *)

Fixpoint span_digits (s : string) : string * string :=
  match s with
  | String c s' =>
      if is_digit c
      then let '(ds, rest) := span_digits s' in (String c ds, rest)
      else (EmptyString, s)
  | EmptyString => (EmptyString, s)
  end.

Definition match_integer (s : string) : option (string * string) :=
  let '(sign, s1) :=
    match s with
    | String "-" r => ("-", r)
    | _ => ("", s)
    end in
  match s1 with
  | String "0" r => Some (sign +:+ "0", r)
  | String c _ =>
      if is_digit c
      then let '(ds, r) := span_digits s1 in Some (sign +:+ ds, r)
      else None
  | EmptyString => None
  end.

Definition match_frac (s : string) : string * string :=
  match s with
  | String "." r =>
      match span_digits r with
      | (EmptyString, _) => ("", s)
      | (ds, r') => ("." +:+ ds, r')
      end
  | _ => ("", s)
  end.

Definition match_exp (s : string) : string * string :=
  match s with
  | String e r =>
      if Ascii.eqb e "e" || Ascii.eqb e "E" then
        let '(sign, r1) :=
          match r with
          | String "-" r1 => ("-", r1)
          | String "+" r1 => ("+", r1)
          | _ => ("", r)
          end in
        match span_digits r1 with
        | (EmptyString, _) => ("", s)
        | (ds, r') => (String e (sign +:+ ds), r')
        end
      else ("", s)
  | EmptyString => ("", s)
  end.

Definition scan_number (s : string) (pos : Z)
  : option (jerror + (value * string * Z)) :=
  match match_integer s with
  | None => None
  | Some (integer, r0) =>
      let '(frac, r1) := match_frac r0 in
      let '(exp, r2) := match_exp r1 in
      let pos' := (pos + len s - len r2)%Z in
      match frac, exp with
      | EmptyString, EmptyString =>
          match int_of_str integer with
          | inr n => Some (inr (VInt n, r2, pos'))
          | inl e => Some (inl (JOther e))
          end
      | _, _ => Some (inr (VFloat (integer +:+ frac +:+ exp), r2, pos'))
      end
  end.

(** **** Strings *)

Definition hex_value (c : ascii) : option Z :=
  let n := Z.of_N (N_of_ascii c) in
  if ((48 <=? n) && (n <=? 57))%Z then Some (n - 48)%Z
  else if ((97 <=? n) && (n <=? 102))%Z then Some (n - 87)%Z
  else if ((65 <=? n) && (n <=? 70))%Z then Some (n - 55)%Z
  else None.

(** [_decode_uXXXX]: four hexadecimal digits. *)
Definition hex4 (s : string) : option (Z * string) :=
  match s with
  | String a (String b (String c (String d rest))) =>
      match hex_value a, hex_value b, hex_value c, hex_value d with
      | Some x, Some y, Some z, Some w =>
          Some (((x * 16 + y) * 16 + z) * 16 + w, rest)%Z
      | _, _, _, _ => None
      end
  | _ => None
  end.

Definition byte (n : Z) : ascii := ascii_of_N (Z.to_N n).

(** [chr(cp)], as UTF-8. *)
Definition chr (cp : Z) : string :=
  if (cp <? 128)%Z then String (byte cp) ""
  else if (cp <? 2048)%Z then
    String (byte (192 + cp / 64)) (String (byte (128 + cp mod 64)) "")
  else if (cp <? 65536)%Z then
    String (byte (224 + cp / 4096))
      (String (byte (128 + (cp / 64) mod 64))
         (String (byte (128 + cp mod 64)) ""))
  else
    String (byte (240 + cp / 262144))
      (String (byte (128 + (cp / 4096) mod 64))
         (String (byte (128 + (cp / 64) mod 64))
            (String (byte (128 + cp mod 64)) ""))).

(** [BACKSLASH]: the one-letter escapes. *)
Definition simple_escape (c : ascii) : option ascii :=
  if Ascii.eqb c dquote then Some dquote
  else if Ascii.eqb c backslash then Some backslash
  else if Ascii.eqb c "/" then Some "/"%char
  else if Ascii.eqb c "b" then Some "008"%char
  else if Ascii.eqb c "f" then Some "012"%char
  else if Ascii.eqb c "n" then Some "010"%char
  else if Ascii.eqb c "r" then Some "013"%char
  else if Ascii.eqb c "t" then Some "009"%char
  else None.

Definition hex_digit (n : Z) : ascii :=
  if (n <? 10)%Z then byte (48 + n) else byte (87 + n).

(** [repr] of a one-character string (ASCII). *)
Definition repr_char (c : ascii) : string :=
  let n := Z.of_N (N_of_ascii c) in
  if Ascii.eqb c "'" then String dquote (String c (String dquote ""))
  else if Ascii.eqb c backslash then "'\\'"
  else if Ascii.eqb c "009" then "'\t'"
  else if Ascii.eqb c "010" then "'\n'"
  else if Ascii.eqb c "013" then "'\r'"
  else if ((n <? 32) || (n =? 127))%Z
  then "'\x" +:+ String (hex_digit (n / 16)) (String (hex_digit (n mod 16)) "'")
  else quoted (String c "").

(** [py_scanstring(s, end)], strict: [s] is what follows the opening
    quote, which is at [start]. *)
Fixpoint scan_string (fuel : nat) (s : string) (pos start : Z)
  : jerror + (string * string * Z) :=
  match fuel with
  | O => inl too_deep
  | S fuel' =>
      match s with
      | EmptyString => inl (JFail "Unterminated string starting at" start)
      | String c rest =>
          if Ascii.eqb c dquote then inr ("", rest, pos + 1)%Z
          else if Ascii.eqb c backslash then
            match rest with
            | EmptyString =>
                inl (JFail "Unterminated string starting at" start)
            | String "u" after_u =>
                match hex4 after_u with
                | None => inl (JFail "Invalid \uXXXX escape" (pos + 1))
                | Some (uni, r1) =>
                    let high := ((55296 <=? uni) && (uni <=? 56319))%Z in
                    let paired :=
                      if high then
                        match strip_prefix "\u" r1 with
                        | Some after_u2 =>
                            match hex4 after_u2 with
                            | None =>
                                inl (JFail "Invalid \uXXXX escape" (pos + 7))
                            | Some (uni2, r2) =>
                                if ((56320 <=? uni2) && (uni2 <=? 57343))%Z
                                then inr (65536 + (uni - 55296) * 1024
                                            + (uni2 - 56320), r2, pos + 12)%Z
                                else inr (uni, r1, pos + 6)%Z
                            end
                        | None => inr (uni, r1, pos + 6)%Z
                        end
                      else inr (uni, r1, pos + 6)%Z in
                    match paired with
                    | inl e => inl e
                    | inr (cp, r, pos') =>
                        match scan_string fuel' r pos' start with
                        | inr (str, r', pos'') => inr (chr cp +:+ str, r', pos'')
                        | inl e => inl e
                        end
                    end
                end
            | String esc after_esc =>
                match simple_escape esc with
                | None =>
                    inl (JFail ("Invalid \escape: " +:+ repr_char esc) (pos + 1))
                | Some c' =>
                    match scan_string fuel' after_esc (pos + 2) start with
                    | inr (str, r', pos') => inr (String c' str, r', pos')
                    | inl e => inl e
                    end
                end
            end
          else if (N_of_ascii c <? 32)%N then
            inl (JFail ("Invalid control character " +:+ repr_char c +:+ " at")
                   (pos + 1))
          else
            match scan_string fuel' rest (pos + 1) start with
            | inr (str, r', pos') => inr (String c str, r', pos')
            | inl e => inl e
            end
      end
  end.

(** [dict(pairs)]: a later pair with the same key replaces the value of
    the earlier one, in its place. *)
Fixpoint dict_set (k : string) (v : value) (d : list (string * value))
  : list (string * value) :=
  match d with
  | [] => [(k, v)]
  | (k', v') :: d' =>
      if String.eqb k k' then (k, v) :: d' else (k', v') :: dict_set k v d'
  end.

Definition dict (pairs : list (string * value)) : list (string * value) :=
  fold_left (fun d kv => dict_set (fst kv) (snd kv) d) pairs [].

Definition expecting_value (r : jerror) : jerror :=
  match r with
  | JStop idx => JFail "Expecting value" idx
  | other => other
  end.

(** [_scan_once], with [JSONArray] and [JSONObject]: [array_items] is
    the loop of the first, [object_pairs] of the second, entered with
    [s] just after the opening quote of a key. *)
Fixpoint scan_once (fuel : nat) (s : string) (pos : Z) {struct fuel}
  : jerror + (value * string * Z) :=
  match fuel with
  | O => inl too_deep
  | S fuel' =>
      match s with
      | EmptyString => inl (JStop pos)
      | String c rest =>
          if Ascii.eqb c dquote then
            match scan_string fuel' rest (pos + 1) pos with
            | inr (str, r, pos') => inr (VStr str, r, pos')
            | inl e => inl e
            end
          else if Ascii.eqb c "{" then
            let '(s1, p1) :=
              match rest with
              | String c1 _ =>
                  if Ascii.eqb c1 dquote then (rest, pos + 1)%Z
                  else skip_ws rest (pos + 1)
              | EmptyString => (rest, pos + 1)%Z
              end in
            match s1 with
            | String c1 r1 =>
                if Ascii.eqb c1 "}" then inr (VDict [], r1, p1 + 1)%Z
                else if Ascii.eqb c1 dquote then
                  match object_pairs fuel' r1 (p1 + 1) with
                  | inr (pairs, r, pos') => inr (VDict (dict pairs), r, pos')
                  | inl e => inl e
                  end
                else
                  inl (JFail
                    "Expecting property name enclosed in double quotes" p1)
            | EmptyString =>
                inl (JFail
                  "Expecting property name enclosed in double quotes" p1)
            end
          else if Ascii.eqb c "[" then
            let '(s1, p1) := skip_ws rest (pos + 1) in
            match s1 with
            | String "]" r1 => inr (VList [], r1, p1 + 1)%Z
            | _ =>
                match array_items fuel' s1 p1 with
                | inr (items, r, pos') => inr (VList items, r, pos')
                | inl e => inl e
                end
            end
          else
            match strip_prefix "null" s, strip_prefix "true" s,
                  strip_prefix "false" s with
            | Some r, _, _ => inr (VNone, r, pos + 4)%Z
            | _, Some r, _ => inr (VBool true, r, pos + 4)%Z
            | _, _, Some r => inr (VBool false, r, pos + 5)%Z
            | None, None, None =>
                match scan_number s pos with
                | Some res => res
                | None =>
                    match strip_prefix "NaN" s, strip_prefix "Infinity" s,
                          strip_prefix "-Infinity" s with
                    | Some r, _, _ => inr (VFloat "NaN", r, pos + 3)%Z
                    | _, Some r, _ => inr (VFloat "Infinity", r, pos + 8)%Z
                    | _, _, Some r => inr (VFloat "-Infinity", r, pos + 9)%Z
                    | None, None, None => inl (JStop pos)
                    end
                end
            end
      end
  end

with array_items (fuel : nat) (s : string) (pos : Z) {struct fuel}
  : jerror + (list value * string * Z) :=
  match fuel with
  | O => inl too_deep
  | S fuel' =>
      match scan_once fuel' s pos with
      | inl e => inl (expecting_value e)
      | inr (v, s1, p1) =>
          let '(s2, p2) := skip_ws s1 p1 in
          match s2 with
          | String "]" r => inr ([v], r, p2 + 1)%Z
          | String "," r =>
              let '(s3, p3) := skip_ws r (p2 + 1) in
              match array_items fuel' s3 p3 with
              | inr (vs, r', pos') => inr (v :: vs, r', pos')
              | inl e => inl e
              end
          | _ => inl (JFail "Expecting ',' delimiter" p2)
          end
      end
  end

with object_pairs (fuel : nat) (s : string) (pos : Z) {struct fuel}
  : jerror + (list (string * value) * string * Z) :=
  match fuel with
  | O => inl too_deep
  | S fuel' =>
      match scan_string fuel' s pos (pos - 1) with
      | inl e => inl e
      | inr (key, s1, p1) =>
          let '(s2, p2) :=
            match s1 with
            | String ":" _ => (s1, p1)
            | _ => skip_ws s1 p1
            end in
          match s2 with
          | String ":" r2 =>
              let '(s3, p3) := skip_ws r2 (p2 + 1) in
              match scan_once fuel' s3 p3 with
              | inl e => inl (expecting_value e)
              | inr (v, s4, p4) =>
                  let '(s5, p5) := skip_ws s4 p4 in
                  match s5 with
                  | String "}" r => inr ([(key, v)], r, p5 + 1)%Z
                  | String "," r =>
                      let '(s6, p6) := skip_ws r (p5 + 1) in
                      match s6 with
                      | String c6 r6 =>
                          if Ascii.eqb c6 dquote then
                            match object_pairs fuel' r6 (p6 + 1) with
                            | inr (pairs, r', pos') =>
                                inr ((key, v) :: pairs, r', pos')
                            | inl e => inl e
                            end
                          else
                            inl (JFail
                              "Expecting property name enclosed in double quotes"
                              p6)
                      | EmptyString =>
                          inl (JFail
                            "Expecting property name enclosed in double quotes"
                            p6)
                      end
                  | _ => inl (JFail "Expecting ',' delimiter" p5)
                  end
              end
          | _ => inl (JFail "Expecting ':' delimiter" p2)
          end
      end
  end.

(** The byte order mark, U+FEFF, in UTF-8. *)
Definition bom : string := String "239" (String "187" (String "191" "")).

(** [json.loads(s)] for a [str]: [JSONDecoder.decode]. *)
Definition json_loads_str (doc : string) : exn + value :=
  match strip_prefix bom doc with
  | Some _ =>
      inl (decode_error "Unexpected UTF-8 BOM (decode using utf-8-sig)" doc 0)
  | None =>
      let '(s0, p0) := skip_ws doc 0 in
      match scan_once (2 * String.length doc + 2) s0 p0 with
      | inl (JStop idx) => inl (decode_error "Expecting value" doc idx)
      | inl (JFail msg p) => inl (decode_error msg doc p)
      | inl (JOther e) => inl e
      | inr (v, s1, p1) =>
          match skip_ws s1 p1 with
          | (EmptyString, _) => inr v
          | (_, p2) => inl (decode_error "Extra data" doc p2)
          end
      end
  end.

(** *** [str(x)]

    Exact for [None], the booleans and the integers.  A float is shown
    by its literal and a string inside a container between single quotes,
    without the escapes [repr] adds. *)
Fixpoint str_of (x : value) : string :=
  match x with
  | VNone => "None"
  | VBool true => "True"
  | VBool false => "False"
  | VInt n => pretty n
  | VFloat literal => literal
  | VStr s => quoted s
  | VList items => "[" +:+ String.concat ", " (map str_of items) +:+ "]"
  | VDict items =>
      "{" +:+ String.concat ", "
               (map (fun kv => let '(k, v) := kv in
                               quoted k +:+ ": " +:+ str_of v) items)
          +:+ "}"
  end.

(** *** [os.execvp]

    The file system: a few programs and one file that is not a program.
    Paths are looked up as they are written. *)
Inductive node : Type := Program | PlainFile | Directory.

Definition files : list (string * node) :=
  [("/", Directory); ("/bin", Directory); ("/usr", Directory);
   ("/usr/bin", Directory); ("/etc", Directory);
   ("/bin/echo", Program); ("/bin/true", Program); ("/usr/bin/env", Program);
   ("/etc/hostname", PlainFile)].

Fixpoint lookup_file (path : string) (fs : list (string * node))
  : option node :=
  match fs with
  | [] => None
  | (name, n) :: fs' =>
      if String.eqb name path then Some n else lookup_file path fs'
  end.

Definition is_prefix (pre s : string) : bool :=
  match strip_prefix pre s with
  | Some _ => true
  | None => false
  end.

(** Whether [path] goes through something that is not a directory. *)
Definition through_file (path : string) : bool :=
  existsb
    (fun entry =>
       match snd entry with
       | Directory => false
       | Program | PlainFile => is_prefix (fst entry +:+ "/") path
       end)
    files.

(** The system call [execve], by its [errno]. *)
Definition sys_execve (path : string) : option exn :=
  match lookup_file path files with
  | Some Program => None
  | Some PlainFile | Some Directory =>
      Some (Exn PermissionError "[Errno 13] Permission denied")
  | None =>
      if through_file path
      then Some (Exn NotADirectoryError "[Errno 20] Not a directory")
      else Some (Exn FileNotFoundError "[Errno 2] No such file or directory")
  end.

(** [os.execv(path, argv)] for a list of [str]: the arguments are
    converted, then the system call is made. *)
Definition execv (path : string) (argv : list string) : option exn :=
  if has_nul path then Some (Exn ValueError "embedded null byte")
  else
    match argv with
    | [] => Some (Exn ValueError "execv() arg 2 must not be empty")
    | arg0 :: _ =>
        if existsb has_nul argv
        then Some (Exn ValueError "embedded null byte")
        else if String.eqb arg0 ""
        then Some (Exn ValueError
               "execv() arg 2 first element cannot be empty")
        else sys_execve path
    end.

Fixpoint contains_slash (s : string) : bool :=
  match s with
  | String c s' => Ascii.eqb c "/" || contains_slash s'
  | EmptyString => false
  end.

(** [s.split(':')] *)
Fixpoint split_colon (s : string) : list string :=
  match s with
  | EmptyString => [EmptyString]
  | String c s' =>
      match split_colon s' with
      | first :: others =>
          if Ascii.eqb c ":" then EmptyString :: first :: others
          else String c first :: others
      | [] => [String c EmptyString]
      end
  end.

Fixpoint ends_with_slash (s : string) : bool :=
  match s with
  | EmptyString => false
  | String c EmptyString => Ascii.eqb c "/"
  | String _ s' => ends_with_slash s'
  end.

(** [posixpath.join(dir, file)] *)
Definition path_join (dir file : string) : string :=
  if is_prefix "/" file then file
  else if String.eqb dir "" || ends_with_slash dir then dir +:+ file
  else dir +:+ "/" +:+ file.

Definition defpath : string := "/bin:/usr/bin".

Definition is_os_error (e : exn) : bool :=
  match exn_cls e with
  | OSError | FileNotFoundError | PermissionError | NotADirectoryError => true
  | _ => false
  end.

Definition is_missing (e : exn) : bool :=
  match exn_cls e with
  | FileNotFoundError | NotADirectoryError => true
  | _ => false
  end.

(** The loop of [os._execvpe] over the search path. *)
Fixpoint search (dirs : list string) (file : string) (argv : list string)
    (saved_exc last_exc : option exn) : option exn :=
  match dirs with
  | [] =>
      match saved_exc with
      | Some e => Some e
      | None => last_exc
      end
  | dir :: dirs' =>
      match execv (path_join dir file) argv with
      | None => None
      | Some e =>
          if is_missing e then search dirs' file argv saved_exc (Some e)
          else if is_os_error e then
            search dirs' file argv
              (match saved_exc with Some s => Some s | None => Some e end)
              (Some e)
          else Some e
      end
  end.

(** [os.execvp(file, argv)] for a [str] and a list of [str]; the limit
    table has no part in it. *)
Definition execv_failure (file : string) (argv : list string)
    (env : gmap string string) (t : limits) : option exn :=
  if contains_slash file then execv file argv
  else
    let path_list := split_colon (default defpath (env !! "PATH")) in
    search path_list file argv None None.

Definition platform : Platform :=
  Build_Platform
    int_of_str json_loads_str setrlimit_refusal execv_failure str_of.

(** A JSON text written with single quotes in place of the double ones. *)
Fixpoint dq (s : string) : string :=
  match s with
  | String c s' => String (if Ascii.eqb c "'" then dquote else c) (dq s')
  | EmptyString => EmptyString
  end.

(** A fresh process: nothing written, no call made yet. *)
Definition start (env : gmap string string) (t : limits) : proc :=
  {| environ := env; rlimits := t; stdout := []; stderr := []; calls := [] |}.

Definition unlimited : limits :=
  {| limit_as := (-1, -1); limit_nproc := (-1, -1) |}.

End Ref.

(** ** Sample processes

    Inputs on which the function is run in the reference platform; some
    come from the testable properties of the specification. *)

Module Sample.

Import Ref.

Definition env_of (l : list (string * string)) : gmap string string :=
  list_to_map l.

(** No argument vector at all. *)
Definition no_args : proc :=
  start (env_of [("HOME", "/root")]) unlimited.

(** An argument vector that is not JSON. *)
Definition bad_json : proc :=
  start (env_of [("STONEBOX_EXEC_ARGS", "not valid json")]) unlimited.

Definition expecting_value_at_0 : exn :=
  Exn JSONDecodeError "Expecting value: line 1 column 1 (char 0)".

(** An empty array. *)
Definition empty_array : proc :=
  start (env_of [("STONEBOX_EXEC_ARGS", "[]")]) unlimited.

(** A number where the name of the program is expected. *)
Definition number_first : proc :=
  start (env_of [("STONEBOX_EXEC_ARGS", dq "[1, 'x']"); ("PATH", "/bin")])
    unlimited.

Definition one_and_x : value := VList [VInt 1; VStr "x"].

(** A program that does not exist. *)
Definition not_a_real_binary : string := "/definitely/not/a/real/binary".

Definition missing_binary : proc :=
  start (env_of [("STONEBOX_EXEC_ARGS", dq "['/definitely/not/a/real/binary']");
                 ("STONEBOX_MEMORY_LIMIT_MB", "512");
                 ("HOME", "/root")])
    unlimited.

Definition no_such_file : exn :=
  Exn FileNotFoundError "[Errno 2] No such file or directory".

(** [/bin/echo hello], with a memory limit variable, from a given limit
    table. *)
Definition echo_hello (memory : string) (t : limits) : proc :=
  start (env_of [("STONEBOX_EXEC_ARGS", dq "['/bin/echo', 'hello']");
                 ("STONEBOX_MEMORY_LIMIT_MB", memory);
                 ("HOME", "/root")]) t.

Definition half_gib : limits :=
  {| limit_as := (536870912, 536870912); limit_nproc := (-1, -1) |}.

(** A process whose parent lowered the hard limit of the address space
    to 1 GiB. *)
Definition one_gib : limits :=
  {| limit_as := (1073741824, 1073741824); limit_nproc := (-1, -1) |}.

Definition not_a_number_error : exn :=
  Exn ValueError "invalid literal for int() with base 10: 'not_a_number'".

(** A memory limit and no argument vector. *)
Definition limit_without_args : proc :=
  start (env_of [("STONEBOX_MEMORY_LIMIT_MB", "512")]) unlimited.

End Sample.

(** ** The paths through the function *)

Section Paths.

Context {platform : Platform}.

(** The requests for a limit that a block makes: one when [int] reads
    its variable, none otherwise. *)
Definition limit_calls (r : resource) (request : Z -> Z * Z)
    (var : option string) : list call :=
  match var with
  | Some (String c s) =>
      match int_of_str (String c s) with
      | inr n => [CallSetrlimit r (request n)]
      | inl _ => []
      end
  | Some EmptyString | None => []
  end.

(** The process at the call of [os.execvp] and the call itself, when
    steps C to E get there from state [q]. *)
Definition exec_call (cmd parts : value) (q : proc) : call :=
  CallExecvp cmd parts (scrub (environ q)) (rlimits q).

Definition at_exec (cmd parts : value) (q : proc) : proc :=
  add_call (exec_call cmd parts q) (set_environ (scrub (environ q)) q).

(** The six ways steps C to E end, from state [q] with the value [c] of
    [STONEBOX_EXEC_ARGS]. *)
Inductive path (c : option string) (q : proc) : result unit * proc -> Prop :=
| path_not_set :
    c = None \/ c = Some "" ->
    path c q (SystemExit 120, add_stderr not_set q)
| path_parse_error (s : string) (e : exn) :
    c = Some s -> s <> "" -> json_loads_str s = inl e ->
    path c q (SystemExit 121, add_stderr (parse_failed +:+ exn_str e) q)
| path_no_element_0 (s : string) (v : value) (e : exn) :
    c = Some s -> s <> "" -> json_loads_str s = inr v ->
    subscript0 v = inl e ->
    path c q (Raised e, q)
| path_replaced (s : string) (v cmd : value) :
    c = Some s -> s <> "" -> json_loads_str s = inr v ->
    subscript0 v = inr cmd ->
    execvp_raises cmd v (scrub (environ q)) (rlimits q) = None ->
    path c q (ImageReplaced, at_exec cmd v q)
| path_not_found (s : string) (v cmd : value) (e : exn) :
    c = Some s -> s <> "" -> json_loads_str s = inr v ->
    subscript0 v = inr cmd ->
    execvp_raises cmd v (scrub (environ q)) (rlimits q) = Some e ->
    is_FileNotFoundError e = true ->
    path c q (SystemExit 127,
              add_stderr (not_found +:+ fmt cmd) (at_exec cmd v q))
| path_exec_failed (s : string) (v cmd : value) (e : exn) :
    c = Some s -> s <> "" -> json_loads_str s = inr v ->
    subscript0 v = inr cmd ->
    execvp_raises cmd v (scrub (environ q)) (rlimits q) = Some e ->
    is_FileNotFoundError e = false ->
    path c q (SystemExit 126,
              add_stderr (exec_failed (fmt cmd) e) (at_exec cmd v q)).

(** A resource is left alone when its variable is absent or empty, or
    when its block fails. *)
Inductive left_alone (r : resource) (p : proc) : Prop :=
| alone_absent :
    environ p !! variable_of r = None -> left_alone r p
| alone_empty :
    environ p !! variable_of r = Some "" -> left_alone r p
| alone_failed (s : string) (e : exn) :
    environ p !! variable_of r = Some s -> s <> "" ->
    limit_failure r (request_of r) s (rlimits (before_block r p)) e ->
    left_alone r p.

End Paths.

(** ** More sample processes *)

Module Inputs.

Import Ref Sample.

(** [/bin/echo hello] with a limit of 64 processes. *)
Definition echo_with_64_processes : proc :=
  start (env_of [("STONEBOX_EXEC_ARGS", dq "['/bin/echo', 'hello']");
                 ("STONEBOX_PROCESS_LIMIT", "64");
                 ("HOME", "/root")]) unlimited.

Definition echo_hello_json : string := dq "['/bin/echo', 'hello']".

Definition not_allowed : exn :=
  Exn ValueError "not allowed to raise maximum limit".

Definition index_error : exn := Exn IndexError "list index out of range".

End Inputs.

(** * Properties *)

Section Facts.

Context {platform : Platform}.

(** ** The function, step by step *)

Lemma set_limits_and_exec_steps (p : proc) :
  set_limits_and_exec p
  = (step_A (environ p !! "STONEBOX_MEMORY_LIMIT_MB") ;;;
     step_B (environ p !! "STONEBOX_PROCESS_LIMIT") ;;;
     steps_C_to_E (environ p !! "STONEBOX_EXEC_ARGS")) p.
Proof. reflexivity. Qed.

Lemma bind_normal {A B} (m : M A) (k : A -> M B) (p p' : proc) (a : A) :
  m p = (Normal a, p') -> bind m k p = k a p'.
Proof. unfold bind. by intros ->. Qed.

Lemma set_environ_same (p : proc) : set_environ (environ p) p = p.
Proof. by destruct p. Qed.

(** [if key in os.environ: del os.environ[key]] never raises, and is
    [delete]. *)
Lemma forget_eq (key : string) (p : proc) :
  (has <~ os_environ_contains key ;; when has (os_environ_del key)) p
  = (Normal tt, set_environ (delete key (environ p)) p).
Proof.
  unfold bind, os_environ_contains, when, os_environ_del, ret.
  destruct (environ p !! key) as [v|] eqn:E; simpl.
  - by rewrite E.
  - by rewrite delete_id, set_environ_same.
Qed.

Lemma step_A_eq (var : option string) (p : proc) :
  step_A var p
  = (Normal tt, limit_outcome RLIMIT_AS memory_failed memory_request var p).
Proof.
  unfold step_A, limit_outcome.
  destruct var as [[|c s]|]; try reflexivity.
  unfold when, truthy, try_except, bind, int, lift, resource_setrlimit.
  destruct (int_of_str (String c s)) as [e|n]; [reflexivity|].
  cbn. unfold memory_request.
  destruct (setrlimit_refusal RLIMIT_AS _ (rlimits p)); reflexivity.
Qed.

Lemma step_B_eq (var : option string) (p : proc) :
  step_B var p
  = (Normal tt,
     limit_outcome RLIMIT_NPROC process_failed process_request var p).
Proof.
  unfold step_B, limit_outcome.
  destruct var as [[|c s]|]; try reflexivity.
  unfold when, truthy, try_except, bind, int, lift, resource_setrlimit.
  destruct (int_of_str (String c s)) as [e|n]; [reflexivity|].
  cbn. unfold process_request.
  destruct (setrlimit_refusal RLIMIT_NPROC _ (rlimits p)); reflexivity.
Qed.

Lemma steps_C_to_E_eq (var : option string) (p : proc) :
  steps_C_to_E var p = launch var p.
Proof.
  unfold steps_C_to_E, launch.
  destruct var as [[|c s]|]; try reflexivity.
  unfold when, truthy, negb.
  unfold bind at 1. unfold ret at 1.
  unfold bind at 1. unfold try_except at 1, json_loads, lift.
  destruct (json_loads_str (String c s)) as [e|parts]; [reflexivity|].
  unfold ret at 1. unfold bind at 1. unfold index0, lift.
  destruct (subscript0 parts) as [e|cmd]; [reflexivity|].
  unfold ret at 1.
  do 3 (erewrite bind_normal by apply forget_eq).
  cbn [environ set_environ].
  change (delete _ (delete _ (delete _ (environ p))))
    with (scrub (environ p)).
  unfold try_except, os_execvp. cbn [environ rlimits set_environ].
  destruct (execvp_raises cmd parts (scrub (environ p)) (rlimits p)) as [e|];
    [|reflexivity].
  cbn. destruct (exn_class_eqb (exn_cls e) FileNotFoundError); reflexivity.
Qed.

Lemma after_limits_eq (p : proc) :
  after_limits p
  = limit_outcome RLIMIT_NPROC process_failed process_request
      (environ p !! "STONEBOX_PROCESS_LIMIT")
      (limit_outcome RLIMIT_AS memory_failed memory_request
         (environ p !! "STONEBOX_MEMORY_LIMIT_MB") p).
Proof. unfold after_limits. by rewrite step_A_eq, step_B_eq. Qed.

Lemma set_limits_and_exec_eq (p : proc) :
  set_limits_and_exec p
  = launch (environ p !! "STONEBOX_EXEC_ARGS") (after_limits p).
Proof.
  rewrite set_limits_and_exec_steps. unfold after_limits.
  erewrite bind_normal by apply step_A_eq.
  erewrite bind_normal by apply step_B_eq.
  by rewrite steps_C_to_E_eq, step_A_eq, step_B_eq.
Qed.

(** ** The limit blocks *)

Lemma append_assoc (a b c : string) : (a +:+ b) +:+ c = a +:+ (b +:+ c).
Proof.
  induction a as [|x a IH]; [done|].
  change (String x ((a +:+ b) +:+ c) = String x (a +:+ b +:+ c)).
  by rewrite IH.
Qed.

Lemma extends_refl (p : proc) : extends p p.
Proof. split; try done; exists []; by rewrite app_nil_r. Qed.

Lemma extends_trans (p q r : proc) : extends p q -> extends q r -> extends p r.
Proof.
  intros [E1 O1 (m1 & S1 & F1) (c1 & C1 & X1)]
         [E2 O2 (m2 & S2 & F2) (c2 & C2 & X2)].
  split; [congruence | congruence | |].
  - exists (m1 ++ m2). rewrite S2, S1, <- List.app_assoc. split; [done|].
    by apply Forall_app.
  - exists (c1 ++ c2). rewrite C2, C1, <- List.app_assoc. split; [done|].
    unfold exec_calls in *. by rewrite List.filter_app, X1, X2.
Qed.

Lemma limit_outcome_extends r failed request var (p : proc) :
  tagged failed ->
  extends p (limit_outcome r failed request var p).
Proof.
  intros [rest ->]. unfold limit_outcome.
  assert (T : forall e, tagged ((tag +:+ rest) +:+ exn_str e)).
  { intros e. exists (rest +:+ exn_str e). by rewrite append_assoc. }
  destruct var as [[|c s]|]; try apply extends_refl.
  destruct (int_of_str _) as [e|n].
  - split; try done; cbn.
    + exists [(tag +:+ rest) +:+ exn_str e]. split; [done|]. by constructor.
    + exists []. by rewrite app_nil_r.
  - destruct (setrlimit_refusal _ _ _) as [e|]; split; try done; cbn.
    + exists [(tag +:+ rest) +:+ exn_str e]. split; [done|]. by constructor.
    + by exists [CallSetrlimit r (request n)].
    + exists []. by rewrite app_nil_r.
    + by exists [CallSetrlimit r (request n)].
Qed.

Lemma memory_failed_tagged : tagged memory_failed.
Proof. by exists "Failed to set memory limit: ". Qed.

Lemma process_failed_tagged : tagged process_failed.
Proof. by exists "Failed to set process limit: ". Qed.

Lemma after_limits_extends (p : proc) : extends p (after_limits p).
Proof.
  rewrite after_limits_eq.
  eapply extends_trans; apply limit_outcome_extends;
    [apply memory_failed_tagged | apply process_failed_tagged].
Qed.

Lemma limit_outcome_other (r r' : resource) failed request var (p : proc) :
  r <> r' ->
  getrlimit r' (rlimits (limit_outcome r failed request var p))
  = getrlimit r' (rlimits p).
Proof.
  intros Hr. unfold limit_outcome.
  destruct var as [[|c s]|]; try done.
  destruct (int_of_str _) as [e|n]; [done|].
  destruct (setrlimit_refusal _ _ _) as [e|]; [done|].
  by destruct r, r'.
Qed.

Lemma limit_outcome_accepted (r : resource) failed request (p : proc)
    (s : string) (n : Z) :
  s <> "" -> int_of_str s = inr n ->
  setrlimit_refusal r (request n) (rlimits p) = None ->
  limit_outcome r failed request (Some s) p
  = set_rlimits (with_rlimit r (request n) (rlimits p))
      (add_call (CallSetrlimit r (request n)) p).
Proof.
  intros Hne Hi Hr. unfold limit_outcome. destruct s; [done|].
  by rewrite Hi, Hr.
Qed.

Lemma limit_outcome_failure r failed request (s : string) (p : proc) e :
  s <> "" -> limit_failure r request s (rlimits p) e ->
  let q := limit_outcome r failed request (Some s) p in
  stderr q = stderr p ++ [failed +:+ exn_str e] /\ rlimits q = rlimits p.
Proof.
  intros Hne Hf. unfold limit_outcome. destruct s; [done|].
  destruct Hf as [Hi | n Hi Hr]; rewrite Hi; [done|]. by rewrite Hr.
Qed.

Lemma limit_outcome_set_environ r failed request var env (p : proc) :
  limit_outcome r failed request var (set_environ env p)
  = set_environ env (limit_outcome r failed request var p).
Proof.
  unfold limit_outcome. destruct var as [[|c s]|]; try done.
  destruct (int_of_str _) as [e|n]; [done|]. cbn [rlimits set_environ].
  by destruct (setrlimit_refusal _ _ _).
Qed.

Lemma getrlimit_with_rlimit r v t : getrlimit r (with_rlimit r v t) = v.
Proof. by destruct r. Qed.

(** ** The calls *)

Lemma calls_since_app (p q : proc) (cs : list call) :
  calls q = calls p ++ cs -> calls_since p q = cs.
Proof. unfold calls_since. intros ->. apply drop_app_length. Qed.

Lemma exec_calls_none (cs : list call) (c : call) :
  exec_calls cs = [] -> c ∈ cs -> is_execvp c = false.
Proof.
  unfold exec_calls. intros E Hc. apply list_elem_of_In in Hc.
  destruct (is_execvp c) eqn:X; [|done].
  assert (H : In c (List.filter is_execvp cs)) by (by apply List.filter_In).
  by rewrite E in H.
Qed.

Lemma as_str_list_map (l : list string) : as_str_list (map VStr l) = Some l.
Proof. induction l as [|a l IH]; [done|]. cbn. by rewrite IH. Qed.

(** ** Steps C to E *)

(** What [launch] does to the state, whatever the way it ends. *)
Lemma launch_cases (c : option string) (q : proc) :
  let q' := snd (launch c q) in
  (environ q' = environ q /\ calls q' = calls q
   \/ exists cmd parts,
        environ q' = scrub (environ q)
        /\ calls q' = calls q
             ++ [CallExecvp cmd parts (scrub (environ q)) (rlimits q)])
  /\ rlimits q' = rlimits q
  /\ stdout q' = stdout q
  /\ exists msgs, stderr q' = stderr q ++ msgs /\ Forall tagged msgs.
Proof.
  assert (T1 : forall m q1, stderr q1 = stderr q -> tagged m ->
            stderr (add_stderr m q1) = stderr q ++ [m] /\ Forall tagged [m]).
  { intros m q1 E1 Tm. cbn. rewrite E1. split; [done|]. by constructor. }
  unfold launch.
  destruct c as [[|a s]|]; cbn zeta.
  - split; [by left|]. do 2 (split; [done|]). eexists. apply T1; [done|].
    by exists "STONEBOX_EXEC_ARGS not set.".
  - destruct (json_loads_str _) as [e|parts].
    + split; [by left|]. do 2 (split; [done|]). eexists. apply T1; [done|].
      by exists ("Failed to parse STONEBOX_EXEC_ARGS: " +:+ exn_str e).
    + destruct (subscript0 parts) as [e|cmd].
      * split; [by left|]. do 2 (split; [done|]).
        exists []. by rewrite app_nil_r.
      * destruct (execvp_raises _ _ _ _) as [e|].
        -- destruct (exn_class_eqb _ _);
             (split; [right; by exists cmd, parts|]);
             do 2 (split; [done|]); eexists; (apply T1; [done|]).
           ++ by exists ("Command not found: " +:+ fmt cmd).
           ++ by exists ("Failed to exec command " +:+ fmt cmd +:+ ": "
                           +:+ exn_str e).
        -- split; [right; by exists cmd, parts|].
           do 2 (split; [done|]). exists []. by rewrite app_nil_r.
  - split; [by left|]. do 2 (split; [done|]). eexists. apply T1; [done|].
    by exists "STONEBOX_EXEC_ARGS not set.".
Qed.

(** A value that is not an argument vector but has an element 0 makes
    [os.execvp] raise before the operating system is asked, and not with
    [FileNotFoundError]. *)
Lemma ill_typed_exec_raises (cmd v : value) env t :
  subscript0 v = inr cmd -> argv_of v = None ->
  exists e, execvp_raises cmd v env t = Some e
            /\ is_FileNotFoundError e = false.
Proof.
  unfold execvp_raises, argv_of.
  destruct v as [| | | |[|c s]|[|x items]|]; try done; cbn [subscript0];
    intros [= <-].
  - intros _. destruct (has_nul _); by eexists.
  - destruct (as_str_list (x :: items)) as [[|a l]|] eqn:A; try done.
    + destruct x; try done. cbn in A. by destruct (as_str_list items).
    + intros _. destruct x; try by eexists.
      destruct (has_nul _); by eexists.
Qed.

(** A value without an element 0 makes [command_parts[0]] raise, and
    nothing catches it. *)
Lemma no_element_0_propagates (p : proc) (s : string) (v : value) (e : exn) :
  environ p !! "STONEBOX_EXEC_ARGS" = Some s ->
  s <> "" ->
  json_loads_str s = inr v ->
  subscript0 v = inl e ->
  set_limits_and_exec p = (Raised e, after_limits p)
  /\ main p = (Exit 1, after_limits p).
Proof.
  intros Hs Hne Hj Hv.
  assert (E : set_limits_and_exec p = (Raised e, after_limits p)).
  { rewrite set_limits_and_exec_eq, Hs. unfold launch.
    destruct s; [done|]. by rewrite Hj, Hv. }
  split; [done|]. unfold main. by rewrite E.
Qed.

(** The function never returns to its caller. *)
Lemma set_limits_and_exec_never_returns (p : proc) :
  fst (set_limits_and_exec p) <> Normal tt.
Proof.
  rewrite set_limits_and_exec_eq. unfold launch.
  destruct (environ p !! "STONEBOX_EXEC_ARGS") as [[|c s]|]; try done.
  destruct (json_loads_str _) as [e|parts]; [done|].
  destruct (subscript0 parts) as [e|cmd]; [done|]. cbn zeta.
  destruct (execvp_raises _ _ _ _) as [e|]; [|done].
  by destruct (exn_class_eqb _ _).
Qed.

Lemma observe_launch_set_environ c env (q : proc) :
  scrub env = scrub (environ q) ->
  observe (launch c (set_environ env q)) = observe (launch c q).
Proof.
  intros Hs. unfold launch. destruct c as [[|a s]|]; try done.
  destruct (json_loads_str _) as [e|parts]; [done|].
  destruct (subscript0 parts) as [e|cmd]; [done|].
  cbn [environ rlimits set_environ]. rewrite Hs.
  destruct (execvp_raises _ _ _ _) as [e|]; [|done].
  by destruct (exn_class_eqb _ _).
Qed.

Lemma scrub_delete (key : string) (env : gmap string string) :
  key = "STONEBOX_MEMORY_LIMIT_MB" \/ key = "STONEBOX_PROCESS_LIMIT" ->
  scrub (delete key env) = scrub env.
Proof.
  intros Hk. apply map_eq. intros k. unfold scrub.
  rewrite !lookup_delete. repeat case_decide; destruct Hk; by subst.
Qed.

(** ** The claims *)

(** C1.  When [STONEBOX_EXEC_ARGS] is absent or is the empty string, the
    function ends by [sys.exit(120)] and the process exits with status
    120; the last line written to the error stream names the variable
    that is not set; no attempt to replace the image has been made. *)
Theorem missing_exec_args_exit_120 (p : proc) :
  environ p !! "STONEBOX_EXEC_ARGS" = None
  \/ environ p !! "STONEBOX_EXEC_ARGS" = Some "" ->
  exists p',
    set_limits_and_exec p = (SystemExit 120, p')
    /\ main p = (Exit 120, p')
    /\ last (stderr p')
       = Some "Stonebox Unix Limiter: STONEBOX_EXEC_ARGS not set."
    /\ exec_calls (calls_since p p') = [].
Proof.
  intros H.
  assert (E : set_limits_and_exec p
              = (SystemExit 120, add_stderr not_set (after_limits p))).
  { rewrite set_limits_and_exec_eq. by destruct H as [-> | ->]. }
  exists (add_stderr not_set (after_limits p)).
  split; [done|]. split; [unfold main; by rewrite E|].
  split; [apply last_snoc|].
  destruct (ext_calls _ _ (after_limits_extends p)) as (cs & C & X).
  by rewrite (calls_since_app p _ cs).
Qed.

(** C2.  When [STONEBOX_EXEC_ARGS] is not empty and [json.loads] raises
    on it, the function ends by [sys.exit(121)] and the process exits
    with status 121; the last line written to the error stream is the
    parse error, after the tag; no attempt to replace the image has been
    made. *)
Theorem invalid_json_exit_121 (p : proc) (s : string) (e : exn) :
  environ p !! "STONEBOX_EXEC_ARGS" = Some s ->
  s <> "" ->
  json_loads_str s = inl e ->
  exists p',
    set_limits_and_exec p = (SystemExit 121, p')
    /\ main p = (Exit 121, p')
    /\ last (stderr p')
       = Some ("Stonebox Unix Limiter: Failed to parse STONEBOX_EXEC_ARGS: "
                 +:+ exn_str e)
    /\ exec_calls (calls_since p p') = [].
Proof.
  intros Hs Hne He.
  assert (E : set_limits_and_exec p
              = (SystemExit 121,
                 add_stderr (parse_failed +:+ exn_str e) (after_limits p))).
  { rewrite set_limits_and_exec_eq, Hs. unfold launch.
    destruct s; [done|]. by rewrite He. }
  eexists. split; [exact E|]. split; [unfold main; by rewrite E|].
  split; [apply last_snoc|].
  destruct (ext_calls _ _ (after_limits_extends p)) as (cs & C & X).
  by rewrite (calls_since_app p _ cs).
Qed.

(** C3, amended.  A value of [STONEBOX_EXEC_ARGS] that [json.loads]
    accepts and that is not a non-empty array of strings is not treated
    as a parse error: the process does not exit with status 121.  When
    the value has an element 0 (a non-empty string, an array with an
    element that is not a string), the environment is scrubbed, the
    replacement of the image is attempted, [os.execvp] raises, and the
    process exits with status 126 after the diagnostic of a failed
    exec. *)
Theorem wrong_shape_is_not_a_parse_error (p : proc) (s : string) (v : value) :
  environ p !! "STONEBOX_EXEC_ARGS" = Some s ->
  s <> "" ->
  json_loads_str s = inr v ->
  argv_of v = None ->
  fst (main p) <> Exit 121
  /\ forall cmd, subscript0 v = inr cmd ->
       exists e p',
         execvp_raises cmd v (scrub (environ p)) (rlimits (after_limits p))
         = Some e
         /\ main p = (Exit 126, p')
         /\ environ p' = scrub (environ p)
         /\ exec_calls (calls_since p p')
            = [CallExecvp cmd v (scrub (environ p)) (rlimits (after_limits p))]
         /\ last (stderr p')
            = Some ("Stonebox Unix Limiter: Failed to exec command "
                      +:+ fmt cmd +:+ ": " +:+ exn_str e).
Proof.
  intros Hs Hne Hj Hv.
  pose proof (after_limits_extends p) as [En _ _ (cs & C & X)].
  assert (E : set_limits_and_exec p = launch (Some s) (after_limits p))
    by (by rewrite set_limits_and_exec_eq, Hs).
  unfold launch in E. destruct s as [|c s]; [done|]. rewrite Hj, En in E.
  unfold main. rewrite E. clear E. split.
  - destruct (subscript0 v) as [e|cmd]; [done|].
    destruct (execvp_raises _ _ _ _) as [e|]; [|done].
    by destruct (exn_class_eqb _ _).
  - intros cmd Hc. rewrite Hc.
    destruct (ill_typed_exec_raises cmd v (scrub (environ p))
                (rlimits (after_limits p)) Hc Hv) as (e & He & F).
    unfold is_FileNotFoundError in F. rewrite He, F.
    exists e. eexists. split; [done|]. split; [done|]. split; [done|].
    split; [|apply last_snoc].
    rewrite (calls_since_app p _ (cs ++
      [CallExecvp cmd v (scrub (environ p)) (rlimits (after_limits p))]))
      by (cbn; by rewrite C, <- List.app_assoc).
    unfold exec_calls in *. by rewrite List.filter_app, X.
Qed.

(** C4.  When the value of [STONEBOX_EXEC_ARGS] parses to the argument
    vector [cmd :: rest] and [os.execvp] raises [e]: the replacement was
    attempted once, with that vector; if [e] is a [FileNotFoundError]
    the process exits with status 127 after the line
    "Command not found: cmd"; otherwise it exits with status 126 after a
    line that reports [e]; and the exit status tells the two cases
    apart. *)
Theorem exec_failure_exit_codes
    (p : proc) (s cmd : string) (rest : list string) (e : exn) :
  environ p !! "STONEBOX_EXEC_ARGS" = Some s ->
  s <> "" ->
  json_loads_str s = inr (VList (map VStr (cmd :: rest))) ->
  execv_failure cmd (cmd :: rest) (scrub (environ p))
    (rlimits (after_limits p)) = Some e ->
  exists p',
    exec_calls (calls_since p p')
    = [CallExecvp (VStr cmd) (VList (map VStr (cmd :: rest)))
         (scrub (environ p)) (rlimits (after_limits p))]
    /\ (is_FileNotFoundError e = true ->
        main p = (Exit 127, p')
        /\ last (stderr p')
           = Some ("Stonebox Unix Limiter: Command not found: " +:+ cmd))
    /\ (is_FileNotFoundError e = false ->
        main p = (Exit 126, p')
        /\ last (stderr p')
           = Some ("Stonebox Unix Limiter: Failed to exec command "
                     +:+ cmd +:+ ": " +:+ exn_str e))
    /\ (fst (main p) = Exit 127 <-> is_FileNotFoundError e = true)
    /\ (fst (main p) = Exit 126 <-> is_FileNotFoundError e = false).
Proof.
  intros Hs Hne Hj Hx.
  pose proof (after_limits_extends p) as [En _ _ (cs & C & X)].
  assert (E : set_limits_and_exec p = launch (Some s) (after_limits p))
    by (by rewrite set_limits_and_exec_eq, Hs).
  unfold launch in E. destruct s as [|c s]; [done|].
  rewrite Hj in E. cbn [subscript0 map] in E.
  unfold execvp_raises in E. cbn [map] in E.
  change (VStr cmd :: map VStr rest) with (map VStr (cmd :: rest)) in E.
  rewrite as_str_list_map, En, Hx in E.
  fold (is_FileNotFoundError e) in E. unfold main. rewrite E. clear E.
  set (q := add_call _ _).
  assert (Q : exec_calls (calls_since p q)
              = [CallExecvp (VStr cmd) (VList (map VStr (cmd :: rest)))
                   (scrub (environ p)) (rlimits (after_limits p))]).
  { rewrite (calls_since_app p q (cs ++ [CallExecvp (VStr cmd)
               (VList (map VStr (cmd :: rest))) (scrub (environ p))
               (rlimits (after_limits p))])).
    - unfold exec_calls in *. by rewrite List.filter_app, X.
    - subst q. cbn. by rewrite C, <- List.app_assoc. }
  destruct (is_FileNotFoundError e) eqn:F.
  - exists (add_stderr (not_found +:+ cmd) q).
    split; [exact Q|]. split; [intros _; split; [done|apply last_snoc]|].
    by repeat split.
  - exists (add_stderr (exec_failed cmd e) q).
    split; [exact Q|]. split; [done|].
    split; [intros _; split; [done|apply last_snoc]|].
    by repeat split.
Qed.

(** C5, amended.  When [STONEBOX_MEMORY_LIMIT_MB] is a string that
    [int] reads as a positive [N] and [resource.setrlimit] accepts the
    request, the request made is soft = hard = N * 1024 * 1024 for the
    address space, this pair is the limit when the function ends, and it
    is the limit in force at every attempt to replace the image. *)
Theorem memory_limit_in_bytes (p : proc) (s : string) (N : Z) :
  environ p !! "STONEBOX_MEMORY_LIMIT_MB" = Some s ->
  s <> "" ->
  int_of_str s = inr N ->
  0 < N ->
  setrlimit_refusal RLIMIT_AS (N * 1024 * 1024, N * 1024 * 1024) (rlimits p)
  = None ->
  let p' := snd (set_limits_and_exec p) in
  getrlimit RLIMIT_AS (rlimits p') = (N * 1024 * 1024, N * 1024 * 1024)
  /\ CallSetrlimit RLIMIT_AS (N * 1024 * 1024, N * 1024 * 1024)
       ∈ calls_since p p'
  /\ forall file args env lims,
       CallExecvp file args env lims ∈ calls_since p p' ->
       getrlimit RLIMIT_AS lims = (N * 1024 * 1024, N * 1024 * 1024).
Proof.
  intros Hs Hne Hi Hpos Hr. cbn zeta.
  rewrite set_limits_and_exec_eq.
  set (pA := set_rlimits (with_rlimit RLIMIT_AS (memory_request N) (rlimits p))
               (add_call (CallSetrlimit RLIMIT_AS (memory_request N)) p)).
  assert (A : after_limits p
    = limit_outcome RLIMIT_NPROC process_failed process_request
        (environ p !! "STONEBOX_PROCESS_LIMIT") pA).
  { rewrite after_limits_eq, Hs.
    by rewrite (limit_outcome_accepted _ _ _ _ s N). }
  assert (L : getrlimit RLIMIT_AS (rlimits (after_limits p)) = memory_request N).
  { rewrite A, limit_outcome_other by done. apply getrlimit_with_rlimit. }
  assert (B : exists cs, calls (after_limits p)
             = calls p ++ CallSetrlimit RLIMIT_AS (memory_request N) :: cs
             /\ exec_calls cs = []).
  { rewrite A.
    destruct (ext_calls _ _ (limit_outcome_extends RLIMIT_NPROC process_failed
       process_request (environ p !! "STONEBOX_PROCESS_LIMIT") pA
       process_failed_tagged)) as (cs & C & X).
    exists cs. split; [|done]. rewrite C. cbn. by rewrite <- List.app_assoc. }
  destruct B as (cs & C & X).
  destruct (launch_cases (environ p !! "STONEBOX_EXEC_ARGS") (after_limits p))
    as ([[_ Hc] | (cmd & parts & He & Hc)] & Hl & _); cbn zeta in *;
    rewrite Hl; (split; [exact L|]).
  - rewrite (calls_since_app p _
               (CallSetrlimit RLIMIT_AS (memory_request N) :: cs))
      by (by rewrite Hc).
    split; [by left|].
    intros file args env lims [[=] | Hin]%elem_of_cons.
    by apply (exec_calls_none _ _ X) in Hin.
  - rewrite (calls_since_app p _
       ((CallSetrlimit RLIMIT_AS (memory_request N) :: cs)
        ++ [CallExecvp cmd parts (scrub (environ (after_limits p)))
              (rlimits (after_limits p))]))
      by (by rewrite Hc, C, <- List.app_assoc).
    split; [by left|].
    intros file args env lims
      [[[=] | Hin]%elem_of_cons | Hin%list_elem_of_singleton]%elem_of_app.
    + by apply (exec_calls_none _ _ X) in Hin.
    + by injection Hin as -> -> -> ->.
Qed.

(** C6.  A limit block that fails, because [int] raises or because
    [resource.setrlimit] does, writes one line to the error stream (the
    tag, which limit failed, the error) and leaves the limit table as it
    was.  Both blocks always complete normally, and the function is
    steps C to E run in the state the two blocks leave: no failure in
    them ends the process. *)
Theorem limit_failures_are_not_fatal (p : proc) :
  let pA := snd (step_A (environ p !! "STONEBOX_MEMORY_LIMIT_MB") p) in
  let pB := snd (step_B (environ p !! "STONEBOX_PROCESS_LIMIT") pA) in
  (forall s e,
     environ p !! "STONEBOX_MEMORY_LIMIT_MB" = Some s -> s <> "" ->
     limit_failure RLIMIT_AS memory_request s (rlimits p) e ->
     stderr pA
     = stderr p
         ++ ["Stonebox Unix Limiter: Failed to set memory limit: "
               +:+ exn_str e]
     /\ rlimits pA = rlimits p)
  /\ (forall s e,
        environ p !! "STONEBOX_PROCESS_LIMIT" = Some s -> s <> "" ->
        limit_failure RLIMIT_NPROC process_request s (rlimits pA) e ->
        stderr pB
        = stderr pA
            ++ ["Stonebox Unix Limiter: Failed to set process limit: "
                  +:+ exn_str e]
        /\ rlimits pB = rlimits pA)
  /\ fst (step_A (environ p !! "STONEBOX_MEMORY_LIMIT_MB") p) = Normal tt
  /\ fst (step_B (environ p !! "STONEBOX_PROCESS_LIMIT") pA) = Normal tt
  /\ set_limits_and_exec p
     = steps_C_to_E (environ p !! "STONEBOX_EXEC_ARGS") pB.
Proof.
  cbn zeta. rewrite !step_A_eq, !step_B_eq. cbn [fst snd].
  split; [|split]; [| |split; [done|split; [done|]]].
  - intros s e -> Hne Hf. by apply limit_outcome_failure.
  - intros s e -> Hne Hf. by apply limit_outcome_failure.
  - rewrite set_limits_and_exec_eq, steps_C_to_E_eq. by rewrite after_limits_eq.
Qed.

(** C7.  At every attempt to replace the image, the environment passed
    on is the environment the function started with, without the three
    variables of the shim: none of the three is in it, whether or not it
    was there before, and every other variable has the value it had. *)
Theorem environment_scrubbed_before_exec
    (p : proc) (file args : value) (env : gmap string string) (lims : limits) :
  CallExecvp file args env lims
    ∈ calls_since p (snd (set_limits_and_exec p)) ->
  env = scrub (environ p)
  /\ environ (snd (set_limits_and_exec p)) = env
  /\ env !! "STONEBOX_MEMORY_LIMIT_MB" = None
  /\ env !! "STONEBOX_PROCESS_LIMIT" = None
  /\ env !! "STONEBOX_EXEC_ARGS" = None
  /\ forall k,
       k <> "STONEBOX_MEMORY_LIMIT_MB" -> k <> "STONEBOX_PROCESS_LIMIT" ->
       k <> "STONEBOX_EXEC_ARGS" ->
       env !! k = environ p !! k.
Proof.
  rewrite set_limits_and_exec_eq.
  pose proof (after_limits_extends p) as [En _ _ (cs & C & X)].
  destruct (launch_cases (environ p !! "STONEBOX_EXEC_ARGS") (after_limits p))
    as ([[_ Hc] | (cmd & parts & He & Hc)] & _).
  - rewrite (calls_since_app p _ cs) by (by rewrite Hc).
    intros Hin. by apply (exec_calls_none _ _ X) in Hin.
  - rewrite (calls_since_app p _ (cs ++
      [CallExecvp cmd parts (scrub (environ (after_limits p)))
         (rlimits (after_limits p))]))
      by (by rewrite Hc, C, <- List.app_assoc).
    rewrite En in *. intros [Hin | Hin%list_elem_of_singleton]%elem_of_app.
    + by apply (exec_calls_none _ _ X) in Hin.
    + injection Hin as -> -> -> ->. unfold scrub.
      split; [done|]. split; [done|].
      split; [by rewrite lookup_delete_ne, lookup_delete_ne, lookup_delete_eq|].
      split; [by rewrite lookup_delete_ne, lookup_delete_eq|].
      split; [by rewrite lookup_delete_eq|].
      intros k K1 K2 K3. by rewrite !lookup_delete_ne.
Qed.

(** C8.  However the function ends, it has written nothing to the
    standard output, and every line it has added to the error stream
    starts with the tag "Stonebox Unix Limiter: ". *)
Theorem diagnostics_go_to_stderr_tagged (p : proc) :
  let p' := snd (set_limits_and_exec p) in
  stdout p' = stdout p
  /\ exists msgs,
       stderr p' = stderr p ++ msgs
       /\ Forall (fun m => exists rest, m = "Stonebox Unix Limiter: " +:+ rest)
            msgs.
Proof.
  cbn zeta. rewrite set_limits_and_exec_eq.
  pose proof (after_limits_extends p) as [_ O (m1 & S1 & F1) _].
  destruct (launch_cases (environ p !! "STONEBOX_EXEC_ARGS") (after_limits p))
    as (_ & _ & O2 & m2 & S2 & F2).
  split; [congruence|].
  exists (m1 ++ m2). rewrite S2, S1, <- List.app_assoc. split; [done|].
  by apply Forall_app.
Qed.

(** C9.  The limits are applied before the argument vector is looked
    at: when the variable of a resource is read by [int] as [n], the
    request is accepted and it differs from the limit in force, and the
    validation of [STONEBOX_EXEC_ARGS] fails (absent, empty, or rejected
    by [json.loads]), the process exits with status 120 or 121 and the
    limit of that resource is the requested one: the limit table is not
    the one the process started with. *)
Theorem limits_stay_changed_when_validation_fails
    (p : proc) (r : resource) (s : string) (n : Z) :
  environ p !! variable_of r = Some s ->
  s <> "" ->
  int_of_str s = inr n ->
  setrlimit_refusal r (request_of r n) (rlimits (before_block r p)) = None ->
  getrlimit r (rlimits p) <> request_of r n ->
  (environ p !! "STONEBOX_EXEC_ARGS" = None
   \/ environ p !! "STONEBOX_EXEC_ARGS" = Some ""
   \/ exists a e, environ p !! "STONEBOX_EXEC_ARGS" = Some a
                  /\ json_loads_str a = inl e) ->
  exists status p',
    main p = (Exit status, p')
    /\ (status = 120 \/ status = 121)
    /\ getrlimit r (rlimits p') = request_of r n
    /\ rlimits p' <> rlimits p.
Proof.
  intros Hs Hne Hi Hr Hd Hx.
  assert (L : getrlimit r (rlimits (after_limits p)) = request_of r n).
  { rewrite after_limits_eq. destruct r; cbn in Hs, Hr; rewrite Hs.
    - rewrite limit_outcome_other by done.
      rewrite (limit_outcome_accepted _ _ _ _ s n) by done.
      apply getrlimit_with_rlimit.
    - rewrite step_A_eq in Hr. cbn [snd] in Hr.
      rewrite (limit_outcome_accepted _ _ _ _ s n) by done.
      apply getrlimit_with_rlimit. }
  assert (E : exists status,
    set_limits_and_exec p = (SystemExit status,
        snd (launch (environ p !! "STONEBOX_EXEC_ARGS") (after_limits p)))
    /\ (status = 120 \/ status = 121)).
  { rewrite set_limits_and_exec_eq.
    destruct Hx as [-> | [-> | (a & e & -> & Hj)]].
    - exists 120. by split; [|left].
    - exists 120. by split; [|left].
    - destruct a as [|c a]; [exists 120; by split; [|left]|].
      exists 121. cbn. rewrite Hj. by split; [|right]. }
  destruct E as (status & E & Hst).
  destruct (launch_cases (environ p !! "STONEBOX_EXEC_ARGS") (after_limits p))
    as (_ & Hl & _). cbn zeta in Hl.
  exists status. eexists. unfold main. rewrite E.
  split; [done|]. split; [done|]. rewrite Hl. split; [done|].
  intros Heq. apply Hd. by rewrite <- Heq.
Qed.

(** C10.  A limit variable set to the empty string is as good as
    absent: the run ends the same way, with the same limit table, the
    same two streams and the same calls as the run from the environment
    without the variable; the block of an empty or absent variable does
    nothing at all. *)
Theorem empty_limit_variable_is_absent (p : proc) (key : string) :
  key = "STONEBOX_MEMORY_LIMIT_MB" \/ key = "STONEBOX_PROCESS_LIMIT" ->
  environ p !! key = Some "" ->
  observe (set_limits_and_exec p)
  = observe (set_limits_and_exec (set_environ (delete key (environ p)) p))
  /\ (forall q, step_A (Some "") q = (Normal tt, q)
                /\ step_A None q = (Normal tt, q))
  /\ (forall q, step_B (Some "") q = (Normal tt, q)
                /\ step_B None q = (Normal tt, q)).
Proof.
  intros Hk He. split; [|by split].
  rewrite !set_limits_and_exec_eq, !after_limits_eq.
  cbn [environ set_environ].
  assert (X : delete key (environ p) !! "STONEBOX_EXEC_ARGS"
              = environ p !! "STONEBOX_EXEC_ARGS")
    by (apply lookup_delete_ne; by destruct Hk as [-> | ->]).
  rewrite X, !limit_outcome_set_environ.
  destruct Hk as [-> | ->];
    rewrite lookup_delete_eq, lookup_delete_ne, He by done;
    cbn [limit_outcome];
    (rewrite observe_launch_set_environ; [done|]).
  - rewrite scrub_delete by (by left).
    by rewrite (ext_environ _ _ (limit_outcome_extends _ _ _ _ p
                                   process_failed_tagged)).
  - rewrite scrub_delete by (by right).
    by rewrite (ext_environ _ _ (limit_outcome_extends _ _ _ _ p
                                   memory_failed_tagged)).
Qed.

End Facts.

(** * The claims on the sample processes *)

Import Sample.

(** C1 on a process without [STONEBOX_EXEC_ARGS]. *)
Lemma missing_exec_args_exit_120_witness :
  (environ no_args !! "STONEBOX_EXEC_ARGS" = None
   \/ environ no_args !! "STONEBOX_EXEC_ARGS" = Some "")
  /\ exists p',
       @set_limits_and_exec Ref.platform no_args = (SystemExit 120, p')
       /\ @main Ref.platform no_args = (Exit 120, p')
       /\ last (stderr p')
          = Some "Stonebox Unix Limiter: STONEBOX_EXEC_ARGS not set."
       /\ exec_calls (calls_since no_args p') = [].
Proof.
  assert (H : environ no_args !! "STONEBOX_EXEC_ARGS" = None
              \/ environ no_args !! "STONEBOX_EXEC_ARGS" = Some "")
    by (left; vm_compute; reflexivity).
  split; [exact H|].
  exact (@missing_exec_args_exit_120 Ref.platform no_args H).
Defined.

(** C2 on the text "not valid json". *)
Lemma invalid_json_exit_121_witness :
  environ bad_json !! "STONEBOX_EXEC_ARGS" = Some "not valid json"
  /\ "not valid json" <> ""
  /\ Ref.json_loads_str "not valid json" = inl expecting_value_at_0
  /\ exists p',
       @set_limits_and_exec Ref.platform bad_json = (SystemExit 121, p')
       /\ @main Ref.platform bad_json = (Exit 121, p')
       /\ last (stderr p')
          = Some ("Stonebox Unix Limiter: Failed to parse STONEBOX_EXEC_ARGS: "
                    +:+ exn_str expecting_value_at_0)
       /\ exec_calls (calls_since bad_json p') = [].
Proof.
  assert (H1 : environ bad_json !! "STONEBOX_EXEC_ARGS" = Some "not valid json")
    by (vm_compute; reflexivity).
  assert (H2 : "not valid json" <> "") by discriminate.
  assert (H3 : Ref.json_loads_str "not valid json" = inl expecting_value_at_0)
    by (vm_compute; reflexivity).
  split; [exact H1|]. split; [exact H2|]. split; [exact H3|].
  exact (@invalid_json_exit_121 Ref.platform bad_json
           "not valid json" expecting_value_at_0 H1 H2 H3).
Defined.

(** C3 as it is stated fails on the empty array: [json.loads] accepts
    the text, the value is no argument vector, [command_parts[0]] raises
    [IndexError], nothing catches it, and the process exits with status
    1, not 121. *)
Lemma empty_array_exits_1_not_121 :
  environ empty_array !! "STONEBOX_EXEC_ARGS" = Some "[]"
  /\ Ref.json_loads_str "[]" = inr (VList [])
  /\ argv_of (VList []) = None
  /\ @set_limits_and_exec Ref.platform empty_array
     = (Raised (Exn IndexError "list index out of range"), empty_array)
  /\ @main Ref.platform empty_array = (Exit 1, empty_array)
  /\ fst (@main Ref.platform empty_array) <> Exit 121.
Proof.
  assert (E : @set_limits_and_exec Ref.platform empty_array
     = (Raised (Exn IndexError "list index out of range"), empty_array))
    by (vm_compute; reflexivity).
  split; [vm_compute; reflexivity|]. split; [vm_compute; reflexivity|].
  split; [reflexivity|]. split; [exact E|].
  unfold main. rewrite E. split; [reflexivity|]. discriminate.
Qed.

(** C3, amended, on an array that starts with a number. *)
Lemma wrong_shape_is_not_a_parse_error_witness :
  environ number_first !! "STONEBOX_EXEC_ARGS" = Some (Ref.dq "[1, 'x']")
  /\ Ref.dq "[1, 'x']" <> ""
  /\ Ref.json_loads_str (Ref.dq "[1, 'x']") = inr one_and_x
  /\ argv_of one_and_x = None
  /\ fst (@main Ref.platform number_first) <> Exit 121
  /\ forall cmd, subscript0 one_and_x = inr cmd ->
       exists e p',
         @execvp_raises Ref.platform cmd one_and_x
           (scrub (environ number_first))
           (rlimits (@after_limits Ref.platform number_first)) = Some e
         /\ @main Ref.platform number_first = (Exit 126, p')
         /\ environ p' = scrub (environ number_first)
         /\ exec_calls (calls_since number_first p')
            = [CallExecvp cmd one_and_x (scrub (environ number_first))
                 (rlimits (@after_limits Ref.platform number_first))]
         /\ last (stderr p')
            = Some ("Stonebox Unix Limiter: Failed to exec command "
                      +:+ @fmt Ref.platform cmd +:+ ": " +:+ exn_str e).
Proof.
  assert (H1 : environ number_first !! "STONEBOX_EXEC_ARGS"
               = Some (Ref.dq "[1, 'x']")) by (vm_compute; reflexivity).
  assert (H2 : Ref.dq "[1, 'x']" <> "") by (vm_compute; discriminate).
  assert (H3 : Ref.json_loads_str (Ref.dq "[1, 'x']") = inr one_and_x)
    by (vm_compute; reflexivity).
  assert (H4 : argv_of one_and_x = None) by reflexivity.
  split; [exact H1|]. split; [exact H2|]. split; [exact H3|].
  split; [exact H4|].
  exact (@wrong_shape_is_not_a_parse_error Ref.platform number_first
           (Ref.dq "[1, 'x']") one_and_x H1 H2 H3 H4).
Defined.

(** C4 on a program that does not exist. *)
Lemma exec_failure_exit_codes_witness :
  environ missing_binary !! "STONEBOX_EXEC_ARGS"
  = Some (Ref.dq "['/definitely/not/a/real/binary']")
  /\ Ref.dq "['/definitely/not/a/real/binary']" <> ""
  /\ Ref.json_loads_str (Ref.dq "['/definitely/not/a/real/binary']")
     = inr (VList (map VStr [not_a_real_binary]))
  /\ Ref.execv_failure not_a_real_binary [not_a_real_binary]
       (scrub (environ missing_binary))
       (rlimits (@after_limits Ref.platform missing_binary))
     = Some no_such_file
  /\ is_FileNotFoundError no_such_file = true
  /\ exists p',
       exec_calls (calls_since missing_binary p')
       = [CallExecvp (VStr not_a_real_binary)
            (VList (map VStr [not_a_real_binary]))
            (scrub (environ missing_binary))
            (rlimits (@after_limits Ref.platform missing_binary))]
       /\ (is_FileNotFoundError no_such_file = true ->
           @main Ref.platform missing_binary = (Exit 127, p')
           /\ last (stderr p')
              = Some ("Stonebox Unix Limiter: Command not found: "
                        +:+ not_a_real_binary))
       /\ (is_FileNotFoundError no_such_file = false ->
           @main Ref.platform missing_binary = (Exit 126, p')
           /\ last (stderr p')
              = Some ("Stonebox Unix Limiter: Failed to exec command "
                        +:+ not_a_real_binary +:+ ": "
                        +:+ exn_str no_such_file))
       /\ (fst (@main Ref.platform missing_binary) = Exit 127
           <-> is_FileNotFoundError no_such_file = true)
       /\ (fst (@main Ref.platform missing_binary) = Exit 126
           <-> is_FileNotFoundError no_such_file = false).
Proof.
  assert (H1 : environ missing_binary !! "STONEBOX_EXEC_ARGS"
               = Some (Ref.dq "['/definitely/not/a/real/binary']"))
    by (vm_compute; reflexivity).
  assert (H2 : Ref.dq "['/definitely/not/a/real/binary']" <> "")
    by (vm_compute; discriminate).
  assert (H3 : Ref.json_loads_str (Ref.dq "['/definitely/not/a/real/binary']")
               = inr (VList (map VStr [not_a_real_binary])))
    by (vm_compute; reflexivity).
  assert (H4 : Ref.execv_failure not_a_real_binary [not_a_real_binary]
                 (scrub (environ missing_binary))
                 (rlimits (@after_limits Ref.platform missing_binary))
               = Some no_such_file)
    by (vm_compute; reflexivity).
  split; [exact H1|]. split; [exact H2|]. split; [exact H3|].
  split; [exact H4|]. split; [reflexivity|].
  exact (@exec_failure_exit_codes Ref.platform missing_binary
           (Ref.dq "['/definitely/not/a/real/binary']")
           not_a_real_binary [] no_such_file H1 H2 H3 H4).
Defined.

(** C5 as it is stated fails when the request is refused: the hard
    limit of the process is 1 GiB, the variable asks for 2048 MiB, an
    unprivileged process may not raise its hard limit, the failure is
    logged, and [/bin/echo] runs with the limit still at 1 GiB. *)
Lemma memory_limit_refused_by_the_kernel :
  let p := echo_hello "2048" one_gib in
  environ p !! "STONEBOX_MEMORY_LIMIT_MB" = Some "2048"
  /\ Ref.int_of_str "2048" = inr 2048
  /\ 0 < 2048
  /\ fst (@main Ref.platform p) = Exec
  /\ stderr (snd (@main Ref.platform p))
     = ["Stonebox Unix Limiter: Failed to set memory limit: not allowed to raise maximum limit"]
  /\ calls (snd (@main Ref.platform p))
     = [CallSetrlimit RLIMIT_AS (2048 * 1024 * 1024, 2048 * 1024 * 1024);
        CallExecvp (VStr "/bin/echo") (VList [VStr "/bin/echo"; VStr "hello"])
          (scrub (environ p)) one_gib]
  /\ getrlimit RLIMIT_AS (rlimits (snd (@set_limits_and_exec Ref.platform p)))
     = (1073741824, 1073741824)
  /\ getrlimit RLIMIT_AS (rlimits (snd (@set_limits_and_exec Ref.platform p)))
     <> (2048 * 1024 * 1024, 2048 * 1024 * 1024).
Proof.
  cbn zeta.
  assert (L : getrlimit RLIMIT_AS
                (rlimits (snd (@set_limits_and_exec Ref.platform
                                 (echo_hello "2048" one_gib))))
              = (1073741824, 1073741824)) by (vm_compute; reflexivity).
  split; [vm_compute; reflexivity|]. split; [vm_compute; reflexivity|].
  split; [lia|]. split; [vm_compute; reflexivity|].
  split; [vm_compute; reflexivity|]. split; [vm_compute; reflexivity|].
  split; [exact L|]. rewrite L. discriminate.
Qed.

(** C5, amended, on 512 MiB asked by a process without limits. *)
Lemma memory_limit_in_bytes_witness :
  let p := echo_hello "512" Ref.unlimited in
  let p' := snd (@set_limits_and_exec Ref.platform p) in
  environ p !! "STONEBOX_MEMORY_LIMIT_MB" = Some "512"
  /\ "512" <> ""
  /\ Ref.int_of_str "512" = inr 512
  /\ 0 < 512
  /\ Ref.setrlimit_refusal RLIMIT_AS (512 * 1024 * 1024, 512 * 1024 * 1024)
       (rlimits p) = None
  /\ getrlimit RLIMIT_AS (rlimits p') = (512 * 1024 * 1024, 512 * 1024 * 1024)
  /\ CallSetrlimit RLIMIT_AS (512 * 1024 * 1024, 512 * 1024 * 1024)
       ∈ calls_since p p'
  /\ forall file args env lims,
       CallExecvp file args env lims ∈ calls_since p p' ->
       getrlimit RLIMIT_AS lims = (512 * 1024 * 1024, 512 * 1024 * 1024).
Proof.
  cbn zeta.
  assert (H1 : environ (echo_hello "512" Ref.unlimited)
                 !! "STONEBOX_MEMORY_LIMIT_MB" = Some "512")
    by (vm_compute; reflexivity).
  assert (H2 : "512" <> "") by discriminate.
  assert (H3 : Ref.int_of_str "512" = inr 512) by (vm_compute; reflexivity).
  assert (H4 : 0 < 512) by lia.
  assert (H5 : Ref.setrlimit_refusal RLIMIT_AS
                 (512 * 1024 * 1024, 512 * 1024 * 1024)
                 (rlimits (echo_hello "512" Ref.unlimited)) = None)
    by (vm_compute; reflexivity).
  split; [exact H1|]. split; [exact H2|]. split; [exact H3|].
  split; [exact H4|]. split; [exact H5|].
  exact (@memory_limit_in_bytes Ref.platform (echo_hello "512" Ref.unlimited)
           "512" 512 H1 H2 H3 H4 H5).
Defined.

(** C6 on a memory limit that is not a number: the failure is logged,
    the limit table is as it was, and [/bin/echo] runs. *)
Lemma limit_failures_are_not_fatal_witness :
  let p := echo_hello "not_a_number" Ref.unlimited in
  let pA := snd (@step_A Ref.platform
                   (environ p !! "STONEBOX_MEMORY_LIMIT_MB") p) in
  environ p !! "STONEBOX_MEMORY_LIMIT_MB" = Some "not_a_number"
  /\ "not_a_number" <> ""
  /\ @limit_failure Ref.platform RLIMIT_AS memory_request "not_a_number"
       (rlimits p) not_a_number_error
  /\ stderr pA
     = stderr p
         ++ ["Stonebox Unix Limiter: Failed to set memory limit: "
               +:+ exn_str not_a_number_error]
  /\ rlimits pA = rlimits p
  /\ fst (@main Ref.platform p) = Exec.
Proof.
  cbn zeta.
  assert (H1 : environ (echo_hello "not_a_number" Ref.unlimited)
                 !! "STONEBOX_MEMORY_LIMIT_MB" = Some "not_a_number")
    by (vm_compute; reflexivity).
  assert (H2 : "not_a_number" <> "") by discriminate.
  assert (H3 : @limit_failure Ref.platform RLIMIT_AS memory_request
                 "not_a_number"
                 (rlimits (echo_hello "not_a_number" Ref.unlimited))
                 not_a_number_error)
    by (apply parse_failure; vm_compute; reflexivity).
  split; [exact H1|]. split; [exact H2|]. split; [exact H3|].
  destruct (@limit_failures_are_not_fatal Ref.platform
              (echo_hello "not_a_number" Ref.unlimited)) as (HA & _).
  destruct (HA "not_a_number" not_a_number_error H1 H2 H3) as [S L].
  split; [exact S|]. split; [exact L|]. vm_compute; reflexivity.
Defined.

(** C7 on [/bin/echo hello]: of the four variables of the process, only
    [HOME] is passed on. *)
Lemma environment_scrubbed_before_exec_witness :
  let p := echo_hello "512" Ref.unlimited in
  let env := env_of [("HOME", "/root")] in
  CallExecvp (VStr "/bin/echo") (VList [VStr "/bin/echo"; VStr "hello"])
    env half_gib
    ∈ calls_since p (snd (@set_limits_and_exec Ref.platform p))
  /\ env = scrub (environ p)
  /\ environ (snd (@set_limits_and_exec Ref.platform p)) = env
  /\ env !! "STONEBOX_MEMORY_LIMIT_MB" = None
  /\ env !! "STONEBOX_PROCESS_LIMIT" = None
  /\ env !! "STONEBOX_EXEC_ARGS" = None
  /\ forall k,
       k <> "STONEBOX_MEMORY_LIMIT_MB" -> k <> "STONEBOX_PROCESS_LIMIT" ->
       k <> "STONEBOX_EXEC_ARGS" ->
       env !! k = environ p !! k.
Proof.
  cbn zeta.
  assert (H : CallExecvp (VStr "/bin/echo")
                (VList [VStr "/bin/echo"; VStr "hello"])
                (env_of [("HOME", "/root")]) half_gib
              ∈ calls_since (echo_hello "512" Ref.unlimited)
                  (snd (@set_limits_and_exec Ref.platform
                          (echo_hello "512" Ref.unlimited)))).
  { apply list_elem_of_In. vm_compute. right. left. reflexivity. }
  split; [exact H|].
  exact (@environment_scrubbed_before_exec Ref.platform
           (echo_hello "512" Ref.unlimited) _ _ _ _ H).
Defined.

(** C9 on a memory limit of 512 MiB and no argument vector: the process
    exits with status 120 and its address space is limited. *)
Lemma limits_stay_changed_when_validation_fails_witness :
  environ limit_without_args !! variable_of RLIMIT_AS = Some "512"
  /\ "512" <> ""
  /\ Ref.int_of_str "512" = inr 512
  /\ Ref.setrlimit_refusal RLIMIT_AS (request_of RLIMIT_AS 512)
       (rlimits (@before_block Ref.platform RLIMIT_AS limit_without_args))
     = None
  /\ getrlimit RLIMIT_AS (rlimits limit_without_args)
     <> request_of RLIMIT_AS 512
  /\ environ limit_without_args !! "STONEBOX_EXEC_ARGS" = None
  /\ exists status p',
       @main Ref.platform limit_without_args = (Exit status, p')
       /\ (status = 120 \/ status = 121)
       /\ getrlimit RLIMIT_AS (rlimits p') = request_of RLIMIT_AS 512
       /\ rlimits p' <> rlimits limit_without_args.
Proof.
  assert (H1 : environ limit_without_args !! variable_of RLIMIT_AS
               = Some "512") by (vm_compute; reflexivity).
  assert (H2 : "512" <> "") by discriminate.
  assert (H3 : Ref.int_of_str "512" = inr 512) by (vm_compute; reflexivity).
  assert (H4 : Ref.setrlimit_refusal RLIMIT_AS (request_of RLIMIT_AS 512)
                 (rlimits (@before_block Ref.platform RLIMIT_AS
                             limit_without_args)) = None)
    by (vm_compute; reflexivity).
  assert (H5 : getrlimit RLIMIT_AS (rlimits limit_without_args)
               <> request_of RLIMIT_AS 512) by (vm_compute; discriminate).
  assert (H6 : environ limit_without_args !! "STONEBOX_EXEC_ARGS" = None)
    by (vm_compute; reflexivity).
  split; [exact H1|]. split; [exact H2|]. split; [exact H3|].
  split; [exact H4|]. split; [exact H5|]. split; [exact H6|].
  exact (@limits_stay_changed_when_validation_fails Ref.platform
           limit_without_args RLIMIT_AS "512" 512 H1 H2 H3 H4 H5
           (or_introl H6)).
Defined.

(** C10 on an empty memory limit: the run is the run without the
    variable; [/bin/echo] runs, nothing is logged, no limit is set. *)
Lemma empty_limit_variable_is_absent_witness :
  let p := echo_hello "" Ref.unlimited in
  ("STONEBOX_MEMORY_LIMIT_MB" = "STONEBOX_MEMORY_LIMIT_MB"
   \/ "STONEBOX_MEMORY_LIMIT_MB" = "STONEBOX_PROCESS_LIMIT")
  /\ environ p !! "STONEBOX_MEMORY_LIMIT_MB" = Some ""
  /\ observe (@set_limits_and_exec Ref.platform p)
     = observe (@set_limits_and_exec Ref.platform
                  (set_environ
                     (delete "STONEBOX_MEMORY_LIMIT_MB" (environ p)) p))
  /\ fst (@main Ref.platform p) = Exec
  /\ stderr (snd (@main Ref.platform p)) = []
  /\ rlimits (snd (@main Ref.platform p)) = Ref.unlimited.
Proof.
  cbn zeta.
  assert (H0 : "STONEBOX_MEMORY_LIMIT_MB" = "STONEBOX_MEMORY_LIMIT_MB"
               \/ "STONEBOX_MEMORY_LIMIT_MB" = "STONEBOX_PROCESS_LIMIT")
    by (left; reflexivity).
  assert (H1 : environ (echo_hello "" Ref.unlimited)
                 !! "STONEBOX_MEMORY_LIMIT_MB" = Some "")
    by (vm_compute; reflexivity).
  split; [exact H0|]. split; [exact H1|].
  split; [exact (proj1 (@empty_limit_variable_is_absent Ref.platform
                          (echo_hello "" Ref.unlimited)
                          "STONEBOX_MEMORY_LIMIT_MB" H0 H1))|].
  repeat split; vm_compute; reflexivity.
Defined.

(** * Further properties *)

Section Further.

Context {platform : Platform}.

Lemma main_eq (p : proc) :
  main p
  = match launch (environ p !! "STONEBOX_EXEC_ARGS") (after_limits p) with
    | (Normal _, p') => (Exit 0, p')
    | (Raised _, p') => (Exit 1, p')
    | (SystemExit n, p') => (Exit n, p')
    | (ImageReplaced, p') => (Exec, p')
    end.
Proof. unfold main. by rewrite set_limits_and_exec_eq. Qed.

Lemma as_str_list_inv (items : list value) (l : list string) :
  as_str_list items = Some l -> items = map VStr l.
Proof.
  revert l. induction items as [|x items IH]; intros l.
  - by intros [= <-].
  - destruct x; try done. cbn.
    destruct (as_str_list items) as [l'|]; [|done].
    intros [= <-]. cbn. by rewrite (IH l').
Qed.

(** The operating system is asked only about an argument vector. *)
Lemma execvp_raises_os (cmd v : value) env t (e : option exn) :
  subscript0 v = inr cmd ->
  execvp_raises cmd v env t = e ->
  (e = None \/ exists x, e = Some x /\ is_FileNotFoundError x = true) ->
  exists arg0 rest,
    v = VList (map VStr (arg0 :: rest)) /\ cmd = VStr arg0
    /\ execv_failure arg0 (arg0 :: rest) env t = e.
Proof.
  intros Hc He Hk.
  destruct (argv_of v) as [l|] eqn:A.
  - unfold argv_of in A. destruct v as [| | | | |items|]; try done.
    destruct (as_str_list items) as [[|a l']|] eqn:S; try done.
    apply as_str_list_inv in S as ->. cbn in Hc. injection Hc as <-.
    exists a, l'. split; [done|]. split; [done|].
    unfold execvp_raises in He.
    change (VStr a :: map VStr l') with (map VStr (a :: l')) in He.
    by rewrite as_str_list_map in He.
  - destruct (ill_typed_exec_raises cmd v env t Hc A) as (x & Hx & F).
    rewrite Hx in He. subst e.
    destruct Hk as [?|(y & [= <-] & Hy)]; [done|congruence].
Qed.

(** X1.  The function never returns to its caller, and the process
    ends in one of six ways: the image is replaced, or the exit status
    is 1 (an exception nobody caught), 120, 121, 126 or 127. *)
Theorem ending_is_exec_or_one_of_five_statuses (p : proc) :
  fst (set_limits_and_exec p) <> Normal tt
  /\ (fst (main p) = Exec \/ fst (main p) = Exit 1
      \/ fst (main p) = Exit 120 \/ fst (main p) = Exit 121
      \/ fst (main p) = Exit 126 \/ fst (main p) = Exit 127).
Proof.
  rewrite main_eq, set_limits_and_exec_eq. unfold launch.
  destruct (environ p !! "STONEBOX_EXEC_ARGS") as [[|c s]|].
  1, 3: split; [done|]; cbn; tauto.
  destruct (json_loads_str _) as [e|parts]; [split; [done|]; cbn; tauto|].
  destruct (subscript0 parts) as [e|cmd]; [split; [done|]; cbn; tauto|].
  cbn zeta.
  destruct (execvp_raises _ _ _ _) as [e|]; [|split; [done|]; cbn; tauto].
  destruct (exn_class_eqb _ _); (split; [done|]; cbn; tauto).
Qed.

(** X2.  The exit status is 120 exactly when [STONEBOX_EXEC_ARGS] is
    absent or empty: nothing else produces this status. *)
Theorem exit_120_only_for_missing_exec_args (p : proc) :
  fst (main p) = Exit 120
  <-> environ p !! "STONEBOX_EXEC_ARGS" = None
      \/ environ p !! "STONEBOX_EXEC_ARGS" = Some "".
Proof.
  rewrite main_eq. unfold launch.
  destruct (environ p !! "STONEBOX_EXEC_ARGS") as [[|c s]|];
    [cbn; split; auto | | cbn; split; auto].
  split; [|by intros [|]].
  destruct (json_loads_str _) as [e|parts]; [done|].
  destruct (subscript0 parts) as [e|cmd]; [done|]. cbn zeta.
  destruct (execvp_raises _ _ _ _) as [e|]; [|done].
  by destruct (exn_class_eqb _ _).
Qed.

(** X3.  The exit status is 121 exactly when [STONEBOX_EXEC_ARGS] is
    not empty and [json.loads] raises on it. *)
Theorem exit_121_only_for_json_errors (p : proc) :
  fst (main p) = Exit 121
  <-> exists s e,
        environ p !! "STONEBOX_EXEC_ARGS" = Some s /\ s <> ""
        /\ json_loads_str s = inl e.
Proof.
  rewrite main_eq. unfold launch.
  destruct (environ p !! "STONEBOX_EXEC_ARGS") as [[|c s]|].
  - split; [done|]. by intros (s & e & [= <-] & ? & _).
  - destruct (json_loads_str (String c s)) as [e|parts] eqn:J.
    + split; [|done]. intros _. by exists (String c s), e.
    + split.
      * destruct (subscript0 parts) as [e|cmd]; [done|]. cbn zeta.
        destruct (execvp_raises _ _ _ _) as [e|]; [|done].
        by destruct (exn_class_eqb _ _).
      * intros (s' & e & [= <-] & _ & J'). congruence.
  - split; [done|]. by intros (s & e & ? & _).
Qed.


Lemma launch_path (c : option string) (q : proc) : path c q (launch c q).
Proof.
  unfold launch. destruct c as [[|a s]|].
  - apply path_not_set. by right.
  - destruct (json_loads_str (String a s)) as [e|v] eqn:J.
    + by eapply path_parse_error.
    + destruct (subscript0 v) as [e|cmd] eqn:S.
      * by eapply path_no_element_0.
      * cbn zeta.
        destruct (execvp_raises _ _ _ _) as [e|] eqn:X.
        -- destruct (exn_class_eqb _ _) eqn:F.
           ++ by eapply path_not_found.
           ++ by eapply path_exec_failed.
        -- by eapply path_replaced.
  - apply path_not_set. by left.
Qed.

Lemma limit_outcome_calls r failed request var (p : proc) :
  calls (limit_outcome r failed request var p)
  = calls p ++ limit_calls r request var.
Proof.
  unfold limit_outcome, limit_calls.
  destruct var as [[|c s]|]; try by rewrite app_nil_r.
  destruct (int_of_str _) as [e|n]; [by rewrite app_nil_r|].
  by destruct (setrlimit_refusal _ _ _).
Qed.

Lemma after_limits_calls (p : proc) :
  calls (after_limits p)
  = calls p
    ++ limit_calls RLIMIT_AS memory_request
         (environ p !! "STONEBOX_MEMORY_LIMIT_MB")
    ++ limit_calls RLIMIT_NPROC process_request
         (environ p !! "STONEBOX_PROCESS_LIMIT").
Proof.
  rewrite after_limits_eq, !limit_outcome_calls. by rewrite <- List.app_assoc.
Qed.

Lemma limit_calls_no_exec r request var :
  exec_calls (limit_calls r request var) = [].
Proof.
  unfold limit_calls. destruct var as [[|c s]|]; try done.
  by destruct (int_of_str _).
Qed.


Lemma run_path (p : proc) :
  exists run,
    set_limits_and_exec p = run
    /\ path (environ p !! "STONEBOX_EXEC_ARGS") (after_limits p) run.
Proof.
  eexists. split; [apply set_limits_and_exec_eq | apply launch_path].
Qed.

Lemma main_of_run (p : proc) (r : result unit) (p' : proc) :
  set_limits_and_exec p = (r, p') ->
  main p = match r with
           | Normal _ => (Exit 0, p')
           | Raised _ => (Exit 1, p')
           | SystemExit n => (Exit n, p')
           | ImageReplaced => (Exec, p')
           end.
Proof. unfold main. by intros ->. Qed.

Lemma calls_since_after_limits (p : proc) :
  calls_since p (after_limits p)
  = limit_calls RLIMIT_AS memory_request
      (environ p !! "STONEBOX_MEMORY_LIMIT_MB")
    ++ limit_calls RLIMIT_NPROC process_request
         (environ p !! "STONEBOX_PROCESS_LIMIT").
Proof. apply calls_since_app, after_limits_calls. Qed.

Lemma calls_since_at_exec (p : proc) (cmd v : value) :
  calls_since p (at_exec cmd v (after_limits p))
  = calls_since p (after_limits p) ++ [exec_call cmd v (after_limits p)].
Proof.
  rewrite calls_since_after_limits. apply calls_since_app. cbn.
  by rewrite after_limits_calls, <- !List.app_assoc.
Qed.

Lemma exec_calls_after_limits (p : proc) :
  exec_calls (calls_since p (after_limits p)) = [].
Proof.
  rewrite calls_since_after_limits. unfold exec_calls.
  rewrite List.filter_app.
  fold (exec_calls (limit_calls RLIMIT_AS memory_request
          (environ p !! "STONEBOX_MEMORY_LIMIT_MB"))).
  fold (exec_calls (limit_calls RLIMIT_NPROC process_request
          (environ p !! "STONEBOX_PROCESS_LIMIT"))).
  by rewrite !limit_calls_no_exec.
Qed.

Lemma exec_calls_at_exec (p : proc) (cmd v : value) :
  exec_calls (calls_since p (at_exec cmd v (after_limits p)))
  = [exec_call cmd v (after_limits p)].
Proof.
  rewrite calls_since_at_exec. unfold exec_calls. rewrite List.filter_app.
  fold (exec_calls (calls_since p (after_limits p))).
  by rewrite exec_calls_after_limits.
Qed.

Lemma exec_call_after_limits (p : proc) (cmd v : value) :
  exec_call cmd v (after_limits p)
  = CallExecvp cmd v (scrub (environ p)) (rlimits (after_limits p)).
Proof.
  unfold exec_call. by rewrite (ext_environ _ _ (after_limits_extends p)).
Qed.

(** X4.  When [STONEBOX_EXEC_ARGS] parses to the strings
    [arg0 :: rest] and the operating system accepts them, the image is
    replaced: the one call of [os.execvp], the last call of the run, has
    [arg0] for program and the whole list, [arg0] included, for argument
    vector, with the scrubbed environment and the limits steps A and B
    left; steps C to E write nothing to the error stream. *)
Theorem image_replaced_with_parsed_argv
    (p : proc) (s arg0 : string) (rest : list string) :
  environ p !! "STONEBOX_EXEC_ARGS" = Some s ->
  s <> "" ->
  json_loads_str s = inr (VList (map VStr (arg0 :: rest))) ->
  execv_failure arg0 (arg0 :: rest) (scrub (environ p))
    (rlimits (after_limits p)) = None ->
  let replacement :=
    CallExecvp (VStr arg0) (VList (map VStr (arg0 :: rest)))
      (scrub (environ p)) (rlimits (after_limits p)) in
  exists p',
    set_limits_and_exec p = (ImageReplaced, p')
    /\ main p = (Exec, p')
    /\ environ p' = scrub (environ p)
    /\ rlimits p' = rlimits (after_limits p)
    /\ stderr p' = stderr (after_limits p)
    /\ exec_calls (calls_since p p') = [replacement]
    /\ last (calls p') = Some replacement.
Proof.
  intros Hs Hne Hj Hx. cbn zeta.
  pose proof (ext_environ _ _ (after_limits_extends p)) as En.
  assert (E : set_limits_and_exec p
    = (ImageReplaced,
       at_exec (VStr arg0) (VList (map VStr (arg0 :: rest))) (after_limits p))).
  { rewrite set_limits_and_exec_eq, Hs. unfold launch.
    destruct s as [|c s]; [done|]. rewrite Hj. cbn [subscript0 map].
    unfold execvp_raises.
    change (VStr arg0 :: map VStr rest) with (map VStr (arg0 :: rest)).
    rewrite <- En in Hx. by rewrite as_str_list_map, Hx. }
  eexists. split; [exact E|]. split; [by rewrite (main_of_run _ _ _ E)|].
  split; [cbn; by rewrite En|]. split; [done|]. split; [done|].
  rewrite exec_calls_at_exec, exec_call_after_limits. split; [done|].
  unfold at_exec. cbn [calls add_call].
  by rewrite last_snoc, exec_call_after_limits.
Qed.

(** X5.  Only a non-empty array of strings reaches the operating
    system: when the image is replaced, or the exit status is 127, the
    value of [STONEBOX_EXEC_ARGS] parsed to strings [arg0 :: rest], and
    the answer is the one the operating system gave for them. *)
Theorem only_an_argument_vector_reaches_the_system (p : proc) :
  fst (main p) = Exec \/ fst (main p) = Exit 127 ->
  exists s arg0 rest,
    environ p !! "STONEBOX_EXEC_ARGS" = Some s
    /\ s <> ""
    /\ json_loads_str s = inr (VList (map VStr (arg0 :: rest)))
    /\ (fst (main p) = Exec ->
        execv_failure arg0 (arg0 :: rest) (scrub (environ p))
          (rlimits (after_limits p)) = None)
    /\ (fst (main p) = Exit 127 ->
        exists e,
          execv_failure arg0 (arg0 :: rest) (scrub (environ p))
            (rlimits (after_limits p)) = Some e
          /\ is_FileNotFoundError e = true).
Proof.
  destruct (run_path p) as ([r p'] & E & P).
  pose proof (ext_environ _ _ (after_limits_extends p)) as En.
  rewrite (main_of_run _ _ _ E).
  inversion P as [H | s e Hc Hn Hj | s v e Hc Hn Hj Hv
                  | s v cmd Hc Hn Hj Hv Hx | s v cmd e Hc Hn Hj Hv Hx F
                  | s v cmd e Hc Hn Hj Hv Hx F]; subst r;
    cbn [fst]; (intros [?|?]; try done); rewrite En in Hx.
  - destruct (execvp_raises_os cmd v _ _ None Hv Hx ltac:(by left))
      as (arg0 & rest & -> & -> & Ho).
    exists s, arg0, rest. by repeat split.
  - destruct (execvp_raises_os cmd v _ _ (Some e) Hv Hx
                ltac:(right; by exists e))
      as (arg0 & rest & -> & -> & Ho).
    exists s, arg0, rest. repeat split; try done. intros _. by exists e.
Qed.


(** Steps C to E leave the limit table alone, and add at most a call of
    [os.execvp]. *)
Lemma path_frame (c : option string) (q : proc) (run : result unit * proc) :
  path c q run ->
  rlimits (snd run) = rlimits q
  /\ (calls (snd run) = calls q
      \/ exists cmd v, calls (snd run) = calls q ++ [exec_call cmd v q]).
Proof.
  intros []; cbn; split; try done; try (by left); right; by eexists _, _.
Qed.

Lemma limit_calls_accepted (r : resource) request (s : string) (n : Z) :
  s <> "" -> int_of_str s = inr n ->
  limit_calls r request (Some s) = [CallSetrlimit r (request n)].
Proof. intros Hne Hi. unfold limit_calls. destruct s; [done|]. by rewrite Hi. Qed.

(** X6.  When [STONEBOX_PROCESS_LIMIT] is read by [int] as [n] and
    [resource.setrlimit] accepts the request, the request made is
    soft = hard = n, with no scaling; this pair is the limit on the
    number of processes when the function ends and at every attempt to
    replace the image. *)
Theorem process_limit_as_given (p : proc) (s : string) (n : Z) :
  environ p !! "STONEBOX_PROCESS_LIMIT" = Some s ->
  s <> "" ->
  int_of_str s = inr n ->
  setrlimit_refusal RLIMIT_NPROC (n, n)
    (rlimits (snd (step_A (environ p !! "STONEBOX_MEMORY_LIMIT_MB") p)))
  = None ->
  let p' := snd (set_limits_and_exec p) in
  getrlimit RLIMIT_NPROC (rlimits p') = (n, n)
  /\ CallSetrlimit RLIMIT_NPROC (n, n) ∈ calls_since p p'
  /\ forall file args env lims,
       CallExecvp file args env lims ∈ calls_since p p' ->
       getrlimit RLIMIT_NPROC lims = (n, n).
Proof.
  intros Hs Hne Hi Hr. cbn zeta.
  assert (L : getrlimit RLIMIT_NPROC (rlimits (after_limits p)) = (n, n)).
  { rewrite after_limits_eq, Hs. rewrite step_A_eq in Hr. cbn [snd] in Hr.
    rewrite (limit_outcome_accepted _ _ process_request _ s n) by done.
    apply getrlimit_with_rlimit. }
  assert (C : CallSetrlimit RLIMIT_NPROC (n, n)
                ∈ calls_since p (after_limits p)).
  { rewrite calls_since_after_limits, Hs.
    rewrite (limit_calls_accepted _ process_request s n) by done.
    apply elem_of_app. right. by left. }
  destruct (run_path p) as (run & -> & P).
  destruct (path_frame _ _ _ P) as (Hl & Hc). rewrite Hl.
  split; [exact L|].
  destruct Hc as [Hc | (cmd & v & Hc)].
  - assert (S : calls_since p (snd run) = calls_since p (after_limits p))
      by (unfold calls_since; by rewrite Hc).
    rewrite S. split; [exact C|].
    intros file args env lims Hin.
    by apply (exec_calls_none _ _ (exec_calls_after_limits p)) in Hin.
  - assert (S : calls_since p (snd run)
                = calls_since p (after_limits p)
                  ++ [exec_call cmd v (after_limits p)]).
    { rewrite <- calls_since_at_exec. unfold calls_since, at_exec.
      by rewrite Hc. }
    rewrite S. split; [apply elem_of_app; by left|].
    intros file args env lims [Hin | Hin%list_elem_of_singleton]%elem_of_app.
    + by apply (exec_calls_none _ _ (exec_calls_after_limits p)) in Hin.
    + unfold exec_call in Hin. by injection Hin as -> -> -> ->.
Qed.

Lemma limit_outcome_left_alone r failed request var (p : proc) :
  var = None \/ var = Some ""
  \/ (exists s e, var = Some s /\ s <> ""
                  /\ limit_failure r request s (rlimits p) e) ->
  rlimits (limit_outcome r failed request var p) = rlimits p.
Proof.
  intros [-> | [-> | (s & e & -> & Hne & Hf)]]; try done.
  by apply (limit_outcome_failure r failed request s p e).
Qed.

(** X7.  A resource whose variable is absent or empty, or whose block
    fails, has at the end of the function the limit it had at the
    start: the block of the other resource and steps C to E do not
    change it. *)
Theorem limit_kept_when_block_does_nothing (p : proc) (r : resource) :
  left_alone r p ->
  getrlimit r (rlimits (snd (set_limits_and_exec p)))
  = getrlimit r (rlimits p).
Proof.
  intros H.
  destruct (run_path p) as (run & -> & P).
  destruct (path_frame _ _ _ P) as (-> & _).
  rewrite after_limits_eq.
  destruct r.
  - rewrite limit_outcome_other by done. f_equal.
    apply limit_outcome_left_alone.
    destruct H as [H | H | s e H Hne Hf]; cbn in H;
      [by left | right; by left | right; right].
    by exists s, e.
  - rewrite (limit_outcome_left_alone RLIMIT_NPROC).
    + by apply limit_outcome_other.
    + destruct H as [H | H | s e H Hne Hf]; cbn in H;
        [by left | right; by left | right; right].
      cbn in Hf. rewrite step_A_eq in Hf. by exists s, e.
Qed.

(** X8.  The environment is scrubbed exactly when the replacement of
    the image is attempted.  Either no attempt is made, the environment
    is the one the function started with and the status is 1, 120 or
    121; or one attempt is made, it is the last call, the environment is
    the scrubbed one, and the image is replaced or the status is 126 or
    127. *)
Theorem environment_scrubbed_only_with_exec (p : proc) :
  let p' := snd (set_limits_and_exec p) in
  (environ p' = environ p
   /\ exec_calls (calls_since p p') = []
   /\ (fst (main p) = Exit 1 \/ fst (main p) = Exit 120
       \/ fst (main p) = Exit 121))
  \/ (environ p' = scrub (environ p)
      /\ (exists file args,
            exec_calls (calls_since p p')
            = [CallExecvp file args (scrub (environ p)) (rlimits p')]
            /\ last (calls p')
               = Some (CallExecvp file args (scrub (environ p)) (rlimits p')))
      /\ (fst (main p) = Exec \/ fst (main p) = Exit 126
          \/ fst (main p) = Exit 127)).
Proof.
  cbn zeta. destruct (run_path p) as ([r p'] & E & P).
  rewrite (main_of_run _ _ _ E), E. cbn [snd].
  pose proof (ext_environ _ _ (after_limits_extends p)) as En.
  pose proof (exec_calls_after_limits p) as X0.
  inversion P as [H | s e Hc Hn Hj | s v e Hc Hn Hj Hv
                  | s v cmd Hc Hn Hj Hv Hx | s v cmd e Hc Hn Hj Hv Hx F
                  | s v cmd e Hc Hn Hj Hv Hx F]; subst r p'.
  1-3: left; split; [by rewrite <- En|]; split; [exact X0|]; cbn; tauto.
  all: right; split; [cbn; by rewrite En|];
       (split; [|cbn; tauto]); exists cmd, v.
  - rewrite exec_calls_at_exec, exec_call_after_limits. split; [done|].
    unfold at_exec. cbn [calls add_call rlimits set_environ].
    by rewrite last_snoc, exec_call_after_limits.
  - change (calls_since p (add_stderr _ ?q)) with (calls_since p q).
    rewrite exec_calls_at_exec, exec_call_after_limits. split; [done|].
    unfold at_exec. cbn [calls add_call add_stderr rlimits set_environ].
    by rewrite last_snoc, exec_call_after_limits.
  - change (calls_since p (add_stderr _ ?q)) with (calls_since p q).
    rewrite exec_calls_at_exec, exec_call_after_limits. split; [done|].
    unfold at_exec. cbn [calls add_call add_stderr rlimits set_environ].
    by rewrite last_snoc, exec_call_after_limits.
Qed.


(** The calls of a run: those of the two limit blocks, then at most the
    call of [os.execvp]. *)
Lemma calls_since_run (p : proc) :
  exists c,
    calls_since p (snd (set_limits_and_exec p))
    = limit_calls RLIMIT_AS memory_request
        (environ p !! "STONEBOX_MEMORY_LIMIT_MB")
      ++ limit_calls RLIMIT_NPROC process_request
           (environ p !! "STONEBOX_PROCESS_LIMIT")
      ++ c
    /\ (c = []
        \/ exists file args,
             c = [CallExecvp file args (scrub (environ p))
                    (rlimits (snd (set_limits_and_exec p)))]).
Proof.
  destruct (run_path p) as (run & -> & P).
  destruct (path_frame _ _ _ P) as (Hl & [Hc | (cmd & v & Hc)]).
  - exists []. split; [|by left]. rewrite app_nil_r.
    rewrite <- calls_since_after_limits. unfold calls_since. by rewrite Hc.
  - exists [exec_call cmd v (after_limits p)]. split.
    + rewrite List.app_assoc, <- calls_since_after_limits.
      rewrite <- calls_since_at_exec. unfold calls_since, at_exec.
      by rewrite Hc.
    + right. exists cmd, v. by rewrite exec_call_after_limits, Hl.
Qed.

Lemma limit_calls_shape (r : resource) request var :
  limit_calls r request var = []
  \/ exists n, limit_calls r request var = [CallSetrlimit r (request n)].
Proof.
  unfold limit_calls. destruct var as [[|c s]|]; try by left.
  destruct (int_of_str _) as [e|n]; [by left|]. right. by exists n.
Qed.

(** X9.  The calls of a run come in a fixed order: at most one request
    for the address space, then at most one for the number of
    processes, then at most one attempt to replace the image, made with
    the scrubbed environment and the limits in force at the end. *)
Theorem calls_in_order (p : proc) :
  let p' := snd (set_limits_and_exec p) in
  exists a b c,
    calls_since p p' = a ++ b ++ c
    /\ (a = []
        \/ exists n,
             a = [CallSetrlimit RLIMIT_AS (n * 1024 * 1024, n * 1024 * 1024)])
    /\ (b = [] \/ exists n, b = [CallSetrlimit RLIMIT_NPROC (n, n)])
    /\ (c = []
        \/ exists file args,
             c = [CallExecvp file args (scrub (environ p)) (rlimits p')]).
Proof.
  cbn zeta. destruct (calls_since_run p) as (c & E & Hc).
  eexists _, _, c. split; [exact E|].
  split; [apply limit_calls_shape|]. split; [apply limit_calls_shape|done].
Qed.

Lemma variable_calls (p : proc) (r : resource) (lim : Z * Z) :
  CallSetrlimit r lim ∈ calls_since p (snd (set_limits_and_exec p))
  <-> CallSetrlimit r lim
        ∈ limit_calls r (request_of r) (environ p !! variable_of r).
Proof.
  destruct (calls_since_run p) as (c & -> & Hc).
  rewrite !elem_of_app.
  assert (N : forall r' request var,
            r' <> r -> CallSetrlimit r lim ∉ limit_calls r' request var).
  { intros r' request var Hr Hin.
    destruct (limit_calls_shape r' request var) as [E | (n & E)];
      rewrite E in Hin.
    - by apply not_elem_of_nil in Hin.
    - apply list_elem_of_singleton in Hin. congruence. }
  assert (X : CallSetrlimit r lim ∉ c).
  { destruct Hc as [-> | (file & args & ->)]; intros Hin.
    - by apply not_elem_of_nil in Hin.
    - by apply list_elem_of_singleton in Hin. }
  destruct r; cbn [variable_of request_of]; split; try tauto.
  - intros [H | [H | H]]; [done | by apply N in H | done].
  - intros [H | [H | H]]; [by apply N in H | done | done].
Qed.

(** X10.  When [int] reads the variable of a resource as [n], whatever
    its sign or size, the one request made for that resource is the one
    for [n] (n * 1024 * 1024 twice for the address space, n twice for
    the processes), whether or not it is accepted. *)
Theorem request_is_the_integer_read
    (p : proc) (r : resource) (s : string) (n : Z) (lim : Z * Z) :
  environ p !! variable_of r = Some s ->
  s <> "" ->
  int_of_str s = inr n ->
  CallSetrlimit r lim ∈ calls_since p (snd (set_limits_and_exec p))
  <-> lim = request_of r n.
Proof.
  intros Hs Hne Hi. rewrite variable_calls, Hs.
  rewrite (limit_calls_accepted r (request_of r) s n) by done.
  rewrite list_elem_of_singleton. split; [by intros [= ->] | by intros ->].
Qed.

(** X11.  No request is made for a resource whose variable is absent,
    empty, or not read by [int]. *)
Theorem no_request_without_an_integer
    (p : proc) (r : resource) (lim : Z * Z) :
  environ p !! variable_of r = None
  \/ environ p !! variable_of r = Some ""
  \/ (exists s e, environ p !! variable_of r = Some s
                  /\ int_of_str s = inl e) ->
  CallSetrlimit r lim ∉ calls_since p (snd (set_limits_and_exec p)).
Proof.
  intros H. rewrite variable_calls.
  assert (E : limit_calls r (request_of r) (environ p !! variable_of r) = []).
  { unfold limit_calls.
    destruct H as [-> | [-> | (s & e & -> & Hi)]]; try done.
    destruct s; [done|]. by rewrite Hi. }
  rewrite E. apply not_elem_of_nil.
Qed.

(** X12.  When the value of [STONEBOX_EXEC_ARGS] parses and has no
    element 0 (an empty array or string, a number, a boolean, null, an
    object), the exception of [command_parts[0]] leaves the function
    uncaught: the process exits with status 1, the environment is not
    scrubbed, steps C to E have written nothing, and no replacement of
    the image was attempted. *)
Theorem missing_element_0_is_not_caught
    (p : proc) (s : string) (v : value) (e : exn) :
  environ p !! "STONEBOX_EXEC_ARGS" = Some s ->
  s <> "" ->
  json_loads_str s = inr v ->
  subscript0 v = inl e ->
  exists p',
    set_limits_and_exec p = (Raised e, p')
    /\ main p = (Exit 1, p')
    /\ environ p' = environ p
    /\ stderr p' = stderr (after_limits p)
    /\ exec_calls (calls_since p p') = [].
Proof.
  intros Hs Hne Hj Hv.
  assert (E : set_limits_and_exec p = (Raised e, after_limits p)).
  { rewrite set_limits_and_exec_eq, Hs. unfold launch.
    destruct s; [done|]. by rewrite Hj, Hv. }
  exists (after_limits p). split; [exact E|].
  split; [by rewrite (main_of_run _ _ _ E)|].
  split; [apply (ext_environ _ _ (after_limits_extends p))|].
  split; [done|]. apply exec_calls_after_limits.
Qed.

(** X13.  No exit is silent: when the function ends by [sys.exit],
    steps C to E have written exactly one line, with the tag, just
    before; when the image is replaced or an exception leaves uncaught,
    they have written none. *)
Theorem every_exit_is_announced (p : proc) :
  let run := set_limits_and_exec p in
  (exists n m,
     fst run = SystemExit n
     /\ stderr (snd run) = stderr (after_limits p) ++ [m]
     /\ (exists rest, m = "Stonebox Unix Limiter: " +:+ rest))
  \/ ((fst run = ImageReplaced \/ exists e, fst run = Raised e)
      /\ stderr (snd run) = stderr (after_limits p)).
Proof.
  cbn zeta. destruct (run_path p) as (run & -> & P).
  destruct P; cbn [fst snd].
  - left. exists 120, not_set. repeat split.
    by exists "STONEBOX_EXEC_ARGS not set.".
  - left. eexists 121, _. repeat split.
    by exists ("Failed to parse STONEBOX_EXEC_ARGS: " +:+ exn_str e).
  - right. split; [right; by exists e|done].
  - right. split; [by left|done].
  - left. eexists 127, _. repeat split.
    by exists ("Command not found: " +:+ fmt cmd).
  - left. eexists 126, _. repeat split.
    by exists ("Failed to exec command " +:+ fmt cmd +:+ ": " +:+ exn_str e).
Qed.

End Further.

(** * The further properties on the sample processes *)

Import Sample Inputs.

(** X4 on [/bin/echo hello]. *)
Lemma image_replaced_with_parsed_argv_witness :
  let p := echo_hello "512" Ref.unlimited in
  let replacement :=
    CallExecvp (VStr "/bin/echo") (VList (map VStr ["/bin/echo"; "hello"]))
      (scrub (environ p)) (rlimits (@after_limits Ref.platform p)) in
  environ p !! "STONEBOX_EXEC_ARGS" = Some echo_hello_json
  /\ echo_hello_json <> ""
  /\ Ref.json_loads_str echo_hello_json
     = inr (VList (map VStr ["/bin/echo"; "hello"]))
  /\ Ref.execv_failure "/bin/echo" ["/bin/echo"; "hello"] (scrub (environ p))
       (rlimits (@after_limits Ref.platform p)) = None
  /\ exists p',
       @set_limits_and_exec Ref.platform p = (ImageReplaced, p')
       /\ @main Ref.platform p = (Exec, p')
       /\ environ p' = scrub (environ p)
       /\ rlimits p' = rlimits (@after_limits Ref.platform p)
       /\ stderr p' = stderr (@after_limits Ref.platform p)
       /\ exec_calls (calls_since p p') = [replacement]
       /\ last (calls p') = Some replacement.
Proof.
  cbn zeta.
  assert (H1 : environ (echo_hello "512" Ref.unlimited)
                 !! "STONEBOX_EXEC_ARGS" = Some echo_hello_json)
    by (vm_compute; reflexivity).
  assert (H2 : echo_hello_json <> "") by (vm_compute; discriminate).
  assert (H3 : Ref.json_loads_str echo_hello_json
               = inr (VList (map VStr ["/bin/echo"; "hello"])))
    by (vm_compute; reflexivity).
  assert (H4 : Ref.execv_failure "/bin/echo" ["/bin/echo"; "hello"]
                 (scrub (environ (echo_hello "512" Ref.unlimited)))
                 (rlimits (@after_limits Ref.platform
                             (echo_hello "512" Ref.unlimited))) = None)
    by (vm_compute; reflexivity).
  split; [exact H1|]. split; [exact H2|]. split; [exact H3|].
  split; [exact H4|].
  exact (@image_replaced_with_parsed_argv Ref.platform
           (echo_hello "512" Ref.unlimited) echo_hello_json
           "/bin/echo" ["hello"] H1 H2 H3 H4).
Defined.

(** X5 on [/bin/echo hello], which replaces the image. *)
Lemma only_an_argument_vector_reaches_the_system_witness :
  let p := echo_hello "512" Ref.unlimited in
  (fst (@main Ref.platform p) = Exec \/ fst (@main Ref.platform p) = Exit 127)
  /\ exists s arg0 rest,
       environ p !! "STONEBOX_EXEC_ARGS" = Some s
       /\ s <> ""
       /\ Ref.json_loads_str s = inr (VList (map VStr (arg0 :: rest)))
       /\ (fst (@main Ref.platform p) = Exec ->
           Ref.execv_failure arg0 (arg0 :: rest) (scrub (environ p))
             (rlimits (@after_limits Ref.platform p)) = None)
       /\ (fst (@main Ref.platform p) = Exit 127 ->
           exists e,
             Ref.execv_failure arg0 (arg0 :: rest) (scrub (environ p))
               (rlimits (@after_limits Ref.platform p)) = Some e
             /\ is_FileNotFoundError e = true).
Proof.
  cbn zeta.
  assert (H : fst (@main Ref.platform (echo_hello "512" Ref.unlimited)) = Exec
              \/ fst (@main Ref.platform (echo_hello "512" Ref.unlimited))
                 = Exit 127)
    by (left; vm_compute; reflexivity).
  split; [exact H|].
  exact (@only_an_argument_vector_reaches_the_system Ref.platform
           (echo_hello "512" Ref.unlimited) H).
Defined.

(** X6 on a limit of 64 processes. *)
Lemma process_limit_as_given_witness :
  let p := echo_with_64_processes in
  let p' := snd (@set_limits_and_exec Ref.platform p) in
  environ p !! "STONEBOX_PROCESS_LIMIT" = Some "64"
  /\ "64" <> ""
  /\ Ref.int_of_str "64" = inr 64
  /\ Ref.setrlimit_refusal RLIMIT_NPROC (64, 64)
       (rlimits (snd (@step_A Ref.platform
                        (environ p !! "STONEBOX_MEMORY_LIMIT_MB") p)))
     = None
  /\ getrlimit RLIMIT_NPROC (rlimits p') = (64, 64)
  /\ CallSetrlimit RLIMIT_NPROC (64, 64) ∈ calls_since p p'
  /\ forall file args env lims,
       CallExecvp file args env lims ∈ calls_since p p' ->
       getrlimit RLIMIT_NPROC lims = (64, 64).
Proof.
  cbn zeta.
  assert (H1 : environ echo_with_64_processes !! "STONEBOX_PROCESS_LIMIT"
               = Some "64") by (vm_compute; reflexivity).
  assert (H2 : "64" <> "") by discriminate.
  assert (H3 : Ref.int_of_str "64" = inr 64) by (vm_compute; reflexivity).
  assert (H4 : Ref.setrlimit_refusal RLIMIT_NPROC (64, 64)
                 (rlimits (snd (@step_A Ref.platform
                    (environ echo_with_64_processes
                       !! "STONEBOX_MEMORY_LIMIT_MB")
                    echo_with_64_processes))) = None)
    by (vm_compute; reflexivity).
  split; [exact H1|]. split; [exact H2|]. split; [exact H3|].
  split; [exact H4|].
  exact (@process_limit_as_given Ref.platform echo_with_64_processes
           "64" 64 H1 H2 H3 H4).
Defined.

(** X7 on a request the kernel refuses: the address space keeps its
    limit of 1 GiB. *)
Lemma limit_kept_when_block_does_nothing_witness :
  let p := echo_hello "2048" one_gib in
  @left_alone Ref.platform RLIMIT_AS p
  /\ getrlimit RLIMIT_AS (rlimits (snd (@set_limits_and_exec Ref.platform p)))
     = getrlimit RLIMIT_AS (rlimits p).
Proof.
  cbn zeta.
  assert (H : @left_alone Ref.platform RLIMIT_AS (echo_hello "2048" one_gib)).
  { apply (alone_failed RLIMIT_AS _ "2048" not_allowed);
      [vm_compute; reflexivity | discriminate |].
    apply (call_failure _ _ _ _ _ 2048); vm_compute; reflexivity. }
  split; [exact H|].
  exact (@limit_kept_when_block_does_nothing Ref.platform
           (echo_hello "2048" one_gib) RLIMIT_AS H).
Defined.

(** X10 on the value -1: the request is for -1048576 twice. *)
Lemma request_is_the_integer_read_witness :
  let p := echo_hello "-1" Ref.unlimited in
  environ p !! variable_of RLIMIT_AS = Some "-1"
  /\ "-1" <> ""
  /\ Ref.int_of_str "-1" = inr (-1)
  /\ (CallSetrlimit RLIMIT_AS (-1048576, -1048576)
        ∈ calls_since p (snd (@set_limits_and_exec Ref.platform p))
      <-> (-1048576, -1048576) = request_of RLIMIT_AS (-1)).
Proof.
  cbn zeta.
  assert (H1 : environ (echo_hello "-1" Ref.unlimited)
                 !! variable_of RLIMIT_AS = Some "-1")
    by (vm_compute; reflexivity).
  assert (H2 : "-1" <> "") by discriminate.
  assert (H3 : Ref.int_of_str "-1" = inr (-1)) by (vm_compute; reflexivity).
  split; [exact H1|]. split; [exact H2|]. split; [exact H3|].
  exact (@request_is_the_integer_read Ref.platform
           (echo_hello "-1" Ref.unlimited) RLIMIT_AS "-1" (-1)
           (-1048576, -1048576) H1 H2 H3).
Defined.

(** X11 on a memory limit that is not a number. *)
Lemma no_request_without_an_integer_witness :
  let p := echo_hello "not_a_number" Ref.unlimited in
  (environ p !! variable_of RLIMIT_AS = None
   \/ environ p !! variable_of RLIMIT_AS = Some ""
   \/ (exists s e, environ p !! variable_of RLIMIT_AS = Some s
                   /\ Ref.int_of_str s = inl e))
  /\ CallSetrlimit RLIMIT_AS (0, 0)
       ∉ calls_since p (snd (@set_limits_and_exec Ref.platform p)).
Proof.
  cbn zeta.
  assert (H : environ (echo_hello "not_a_number" Ref.unlimited)
                !! variable_of RLIMIT_AS = None
              \/ environ (echo_hello "not_a_number" Ref.unlimited)
                   !! variable_of RLIMIT_AS = Some ""
              \/ (exists s e,
                    environ (echo_hello "not_a_number" Ref.unlimited)
                      !! variable_of RLIMIT_AS = Some s
                    /\ Ref.int_of_str s = inl e)).
  { right. right. exists "not_a_number", not_a_number_error.
    split; vm_compute; reflexivity. }
  split; [exact H|].
  exact (@no_request_without_an_integer Ref.platform
           (echo_hello "not_a_number" Ref.unlimited) RLIMIT_AS (0, 0) H).
Defined.

(** X12 on the empty array. *)
Lemma missing_element_0_is_not_caught_witness :
  environ empty_array !! "STONEBOX_EXEC_ARGS" = Some "[]"
  /\ "[]" <> ""
  /\ Ref.json_loads_str "[]" = inr (VList [])
  /\ subscript0 (VList []) = inl index_error
  /\ exists p',
       @set_limits_and_exec Ref.platform empty_array = (Raised index_error, p')
       /\ @main Ref.platform empty_array = (Exit 1, p')
       /\ environ p' = environ empty_array
       /\ stderr p' = stderr (@after_limits Ref.platform empty_array)
       /\ exec_calls (calls_since empty_array p') = [].
Proof.
  assert (H1 : environ empty_array !! "STONEBOX_EXEC_ARGS" = Some "[]")
    by (vm_compute; reflexivity).
  assert (H2 : "[]" <> "") by discriminate.
  assert (H3 : Ref.json_loads_str "[]" = inr (VList []))
    by (vm_compute; reflexivity).
  assert (H4 : subscript0 (VList []) = inl index_error) by reflexivity.
  split; [exact H1|]. split; [exact H2|]. split; [exact H3|].
  split; [exact H4|].
  exact (@missing_element_0_is_not_caught Ref.platform empty_array
           "[]" (VList []) index_error H1 H2 H3 H4).
Defined.
